(** * R6-API: the Ubisoft login manager and its token cache

    A shallow embedding of the revisions of the login manager:

    - [UbiAuth]  : [src/http/ubi-auth.ts], one in-memory slot, 30 minute rule;
    - [Legacy]   : the manager that logs in on every [Login()] and only saves;
    - [Cached]   : the manager with [loadToken]/[saveToken] and the five
                   minute margin, whose [RequestLogin] fills in a default
                   expiration;
    - [CachedPlain] : the same file cache, [RequestLogin] without the default.

    Promises are run to completion one after the other (the code awaits every
    call), so an [async] function is a state transformer that either
    completes normally or throws.  What the code cannot decide is handed to
    it: the clock read by each [Date.now()] and the answer of the network
    to each request are arguments, so that every statement holds for any
    passage of time and any server.  Times are milliseconds since the epoch,
    in [Z]. *)

From Stdlib Require Import ZArith String Ascii List Bool Lia.
From stdpp Require Import base option gmap strings list fin_maps pretty.

Local Open Scope string_scope.
Local Open Scope Z_scope.

(** ** JavaScript values *)

(** The scalar JSON values.  The members of a session document are scalars
    (the interface [R6UserResponse] declares strings); numbers are the
    integral ones. *)
Inductive JValue : Type :=
| JNull
| JBool (b : bool)
| JNum (n : Z)
| JStr (s : string).

Global Instance JValue_eq_dec : EqDecision JValue.
Proof. solve_decision. Defined.

(** *** Objects

    An object with scalar members: its own properties in the order
    JavaScript keeps them, which is the order [JSON.stringify] prints and
    [{...o}] copies.  Keys that are array indices come first, in ascending
    order; the other keys follow in the order in which they were added.
    Assigning to a key that is there keeps its place. *)
Record Obj : Type := mkObj { members : list (string * JValue) }.

Fixpoint decimal_index (acc : N) (s : string) : option N :=
  match s with
  | EmptyString => Some acc
  | String c s' =>
      let n := N_of_ascii c in
      if (48 <=? n)%N && (n <=? 57)%N
      then decimal_index (10 * acc + (n - 48))%N s'
      else None
  end.

(** The array index a key stands for: the canonical decimal numeral of an
    integer below [2^32 - 1]. *)
Definition array_index (k : string) : option N :=
  match k with
  | EmptyString => None
  | String c rest =>
      if Ascii.eqb c "0" && negb (String.eqb rest "")
      then None
      else match decimal_index 0 k with
           | Some n => if (n <=? 4294967294)%N then Some n else None
           | None => None
           end
  end.

(** Whether a new key [k] takes its place before the key [k']. *)
Definition comes_before (k k' : string) : bool :=
  match array_index k, array_index k' with
  | Some n, Some n' => (n <? n')%N
  | Some _, None => true
  | None, _ => false
  end.

(** [o[k]] *)
Fixpoint get_member (k : string) (l : list (string * JValue)) : option JValue :=
  match l with
  | [] => None
  | (k', v) :: l' => if String.eqb k k' then Some v else get_member k l'
  end.

(** [o[k] = v] for a key that is there; [None] when it is not. *)
Fixpoint assign_member (k : string) (v : JValue) (l : list (string * JValue))
  : option (list (string * JValue)) :=
  match l with
  | [] => None
  | (k', v') :: l' =>
      if String.eqb k k' then Some ((k, v) :: l')
      else match assign_member k v l' with
           | Some r => Some ((k', v') :: r)
           | None => None
           end
  end.

(** [o[k] = v] for a new key. *)
Fixpoint add_member (k : string) (v : JValue) (l : list (string * JValue))
  : list (string * JValue) :=
  match l with
  | [] => [(k, v)]
  | (k', v') :: l' =>
      if comes_before k k' then (k, v) :: l else (k', v') :: add_member k v l'
  end.

Global Instance Obj_lookup : Lookup string JValue Obj :=
  fun k o => get_member k (members o).

Global Instance Obj_insert : Insert string JValue Obj :=
  fun k v o =>
    match assign_member k v (members o) with
    | Some l => mkObj l
    | None => mkObj (add_member k v (members o))
    end.

Global Instance Obj_empty : Empty Obj := mkObj [].

Global Instance Obj_singleton : SingletonM string JValue Obj :=
  fun k v => mkObj [(k, v)].

(** What [JSON.parse] can return: a scalar, or an object with scalar members. *)
Inductive Json : Type :=
| JAtom (v : JValue)
| JObject (o : Obj).

(** [!!v] of JavaScript. *)
Definition truthy (v : JValue) : bool :=
  match v with
  | JNull => false
  | JBool b => b
  | JNum n => negb (n =? 0)
  | JStr s => negb (String.eqb s "")
  end.

(** A member that may be [undefined]; [undefined] is falsy. *)
Definition truthy_opt (v : option JValue) : bool :=
  match v with
  | Some v => truthy v
  | None => false
  end.

(** [a || b] on values. *)
Definition js_or (a : option JValue) (b : JValue) : JValue :=
  match a with
  | Some v => if truthy v then v else b
  | None => b
  end.

(** ** The runtime the code stands on

    [Date.parse], [Date.prototype.toISOString], [JSON.parse] and
    [JSON.stringify] belong to the JavaScript engine, not to this repository.
    The managers are defined over any such runtime; [node] below is an
    executable one used to run them on concrete states. *)
Class Runtime : Type := {
  (** [Date.parse s]; [None] is [NaN]. *)
  Date_parse : string -> option Z;
  (** [new Date(t).toISOString()]. *)
  toISOString : Z -> string;
  (** [JSON.parse raw]; [None] is a thrown [SyntaxError]. *)
  JSON_parse : string -> option Json;
  (** [JSON.stringify(o, null, 2)]. *)
  JSON_stringify : Obj -> string
}.

(** [new Date(v).getTime()]; [None] is [NaN].  A number is clipped to the
    range of time values, a boolean and [null] are converted to a number. *)
Definition Date_getTime `{Runtime} (v : JValue) : option Z :=
  match v with
  | JStr s => Date_parse s
  | JNum n => if Z.abs n <=? 8640000000000000 then Some n else None
  | JBool b => Some (if b then 1 else 0)
  | JNull => Some 0
  end.

(** [x > y] where [x] may be [NaN]. *)
Definition js_gt (x : option Z) (y : Z) : bool :=
  match x with
  | Some x => y <? x
  | None => false
  end.

(** ** HTTP *)

(** The parsed body of a response: an object, or the JSON [null].  Any
    other body (a string when the answer is not JSON, a number, a boolean)
    is, for [{...response.data}] and for [response.data.k], the object of
    its own enumerable members, and is given as that object. *)
Inductive Body : Type :=
| NullBody
| ObjectBody (o : Obj).

Record Response : Type := mkResponse {
  status : Z;
  (** axios lower-cases the header names *)
  headers : gmap string string;
  (** [response.data] *)
  body : Body
}.

(** The members of [response.data]: what [{...response.data}] copies and
    what [response.data.k] reads where it does not throw; [null] has none. *)
Definition data (r : Response) : Obj :=
  match body r with
  | NullBody => ∅
  | ObjectBody o => o
  end.

(** What the network does with one request. *)
Inductive Transport : Type :=
| Answered (r : Response)
| Unreachable (code : string).

(** Everything the code can throw. *)
Inductive Thrown : Type :=
| Error (message : string)                  (* new Error(message) *)
| Literal (text : string)                   (* throw 'text' *)
| AxiosError (response : option Response)   (* rejection made by axios *)
| SystemError (code : string)               (* rejection made by fs *)
| SyntaxError                               (* JSON.parse *)
| TypeError.                                (* member access on null *)

Definition isAxiosError (e : Thrown) : bool :=
  match e with
  | AxiosError _ => true
  | _ => false
  end.

(** [error.response?.status] *)
Definition response_status (e : Thrown) : option Z :=
  match e with
  | AxiosError (Some r) => Some (status r)
  | _ => None
  end.

(** axios' default [validateStatus]. *)
Definition validateStatus (status : Z) : bool :=
  (200 <=? status) && (status <? 300).

(** How the promise returned by [axios(httpConfig)] settles. *)
Definition settle (t : Transport) : Thrown + Response :=
  match t with
  | Answered r => if validateStatus (status r) then inr r else inl (AxiosError (Some r))
  | Unreachable _ => inl (AxiosError None)
  end.

(** ** Completions and the state monad of an async function *)

Inductive Completion (A : Type) : Type :=
| Normal (a : A)
| Abrupt (e : Thrown).
Arguments Normal {A} a.
Arguments Abrupt {A} e.

Definition M (St A : Type) : Type := St -> Completion A * St.

Global Instance M_ret {St} : MRet (M St) := fun A a s => (Normal a, s).

Global Instance M_bind {St} : MBind (M St) := fun A B k m s =>
  match m s with
  | (Normal a, s') => k a s'
  | (Abrupt e, s') => (Abrupt e, s')
  end.

Definition throw {St A} (e : Thrown) : M St A := fun s => (Abrupt e, s).

(** [try { body } catch (error) { handler }] *)
Definition try_catch {St A} (body : M St A) (handler : Thrown -> M St A) : M St A :=
  fun s =>
    match body s with
    | (Normal a, s') => (Normal a, s')
    | (Abrupt e, s') => handler e s'
    end.

Definition get {St} : M St St := fun s => (Normal s, s).
Definition modify {St} (f : St -> St) : M St unit := fun s => (Normal tt, f s).

(** ** An executable runtime

    [node] implements the four runtime functions on the part of their
    domain the managers use, for a host whose time zone is UTC: the
    date-time string format of ECMAScript, and JSON documents that are a
    scalar or an object of scalars, with integers for numbers (those a
    double holds, of magnitude below [10^21], which print without an
    exponent).  Whatever is
    outside (the other date formats an engine may read, fractions and
    exponents, nested documents) is reported as unparseable. *)
Module Node.

Definition digit (n : Z) : ascii := ascii_of_nat (48 + Z.to_nat (n mod 10)).

(** [n] in decimal on [width] places, zero padded. *)
Fixpoint digits (width : nat) (n : Z) : string :=
  match width with
  | O => ""
  | S w => digits w (n / 10) +:+ String (digit n) ""
  end.

(** Day number (days since 1970-01-01) to year, month, day of the proleptic
    Gregorian calendar. *)
Definition civil_from_days (days : Z) : Z * Z * Z :=
  let z := days + 719468 in
  let era := z / 146097 in
  let doe := z - era * 146097 in
  let yoe := (doe - doe / 1460 + doe / 36524 - doe / 146096) / 365 in
  let doy := doe - (365 * yoe + yoe / 4 - yoe / 100) in
  let mp := (5 * doy + 2) / 153 in
  let d := doy - (153 * mp + 2) / 5 + 1 in
  let m := if mp <? 10 then mp + 3 else mp - 9 in
  let y := yoe + era * 400 + (if m <=? 2 then 1 else 0) in
  (y, m, d).

Definition days_from_civil (y m d : Z) : Z :=
  let y' := if m <=? 2 then y - 1 else y in
  let era := y' / 400 in
  let yoe := y' - era * 400 in
  let doy := (153 * (if 2 <? m then m - 3 else m + 9) + 2) / 5 + d - 1 in
  let doe := yoe * 365 + yoe / 4 - yoe / 100 + doy in
  era * 146097 + doe - 719468.

Definition leap (y : Z) : bool :=
  ((y mod 4 =? 0) && negb (y mod 100 =? 0)) || (y mod 400 =? 0).

Definition days_in_month (y m : Z) : Z :=
  if m =? 2 then (if leap y then 29 else 28)
  else if (m =? 4) || (m =? 6) || (m =? 9) || (m =? 11) then 30
  else 31.

Definition year_string (y : Z) : string :=
  if (0 <=? y) && (y <=? 9999) then digits 4 y
  else (if y <? 0 then "-" else "+") +:+ digits 6 (Z.abs y).

Definition iso_format (t : Z) : string :=
  let ms := t mod 86400000 in
  let '(y, m, d) := civil_from_days (t / 86400000) in
  year_string y +:+ "-" +:+ digits 2 m +:+ "-" +:+ digits 2 d +:+ "T"
  +:+ digits 2 (ms / 3600000) +:+ ":" +:+ digits 2 (ms / 60000 mod 60) +:+ ":"
  +:+ digits 2 (ms / 1000 mod 60) +:+ "." +:+ digits 3 (ms mod 1000) +:+ "Z".

Definition digit_value (c : ascii) : option Z :=
  let n := Z.of_nat (nat_of_ascii c) in
  if (48 <=? n) && (n <=? 57) then Some (n - 48) else None.

(** Exactly [width] decimal digits. *)
Fixpoint take_digits (width : nat) (acc : Z) (l : list ascii) : option (Z * list ascii) :=
  match width with
  | O => Some (acc, l)
  | S w =>
      match l with
      | c :: l' =>
          match digit_value c with
          | Some v => take_digits w (10 * acc + v) l'
          | None => None
          end
      | [] => None
      end
  end.

(** The longest prefix of digits. *)
Fixpoint span_digits (l : list ascii) : list Z * list ascii :=
  match l with
  | c :: l' =>
      match digit_value c with
      | Some v => let '(ds, r) := span_digits l' in (v :: ds, r)
      | None => ([], l)
      end
  | [] => ([], [])
  end.

Definition expect (c : ascii) (l : list ascii) : option (list ascii) :=
  match l with
  | c' :: l' => if Ascii.eqb c c' then Some l' else None
  | [] => None
  end.

(** The optional fraction of a second, in milliseconds. *)
Definition fraction (l : list ascii) : option (Z * list ascii) :=
  match l with
  | c :: l' =>
      if Ascii.eqb c "."
      then match span_digits l' with
           | ([], _) => None
           | (ds, r) => Some (100 * nth 0 ds 0 + 10 * nth 1 ds 0 + nth 2 ds 0, r)
           end
      else Some (0, l)
  | [] => Some (0, l)
  end.

(** The year: four digits, or a sign and six. *)
Definition iso_year (l : list ascii) : option (Z * list ascii) :=
  match l with
  | "+"%char :: l1 => take_digits 6 0 l1
  | "-"%char :: l1 =>
      '(y, l2) ← take_digits 6 0 l1;
      if y =? 0 then None else Some (- y, l2)
  | _ => take_digits 4 0 l
  end.

(** The optional month and the optional day. *)
Definition iso_month_day (l : list ascii) : option (Z * Z * list ascii) :=
  match l with
  | "-"%char :: l1 =>
      '(m, l2) ← take_digits 2 0 l1;
      match l2 with
      | "-"%char :: l3 => '(d, l4) ← take_digits 2 0 l3; Some (m, d, l4)
      | _ => Some (m, 1, l2)
      end
  | _ => Some (1, 1, l)
  end.

(** The optional seconds with their optional fraction, in milliseconds. *)
Definition iso_seconds (l : list ascii) : option (Z * list ascii) :=
  match l with
  | ":"%char :: l1 =>
      '(ss, l2) ← take_digits 2 0 l1;
      '(ms, l3) ← fraction l2;
      if ss <=? 59 then Some (ss * 1000 + ms, l3) else None
  | _ => Some (0, l)
  end.

(** The UTC offset that ends a date-time, in minutes: [Z] or a sign, hours
    and minutes.  A date-time without an offset is local time; the host
    keeps UTC. *)
Definition iso_offset (l : list ascii) : option Z :=
  match l with
  | [] => Some 0
  | ["Z"%char] => Some 0
  | sign :: l1 =>
      if Ascii.eqb sign "+" || Ascii.eqb sign "-" then
        '(hh, l2) ← take_digits 2 0 l1;
        l3 ← expect ":" l2;
        '(mm, l4) ← take_digits 2 0 l3;
        match l4 with
        | [] =>
            if (hh <=? 23) && (mm <=? 59)
            then Some (if Ascii.eqb sign "-" then - (hh * 60 + mm) else hh * 60 + mm)
            else None
        | _ => None
        end
      else None
  end.

(** The time of day and the offset after [T], as milliseconds to add to the
    UTC midnight of the date. *)
Definition iso_time (l : list ascii) : option Z :=
  '(hh, l) ← take_digits 2 0 l;
  l ← expect ":" l;
  '(mm, l) ← take_digits 2 0 l;
  '(sms, l) ← iso_seconds l;
  off ← iso_offset l;
  if ((hh <=? 23) && (mm <=? 59)) || ((hh =? 24) && (mm =? 0) && (sms =? 0))
  then Some (hh * 3600000 + mm * 60000 + sms - off * 60000)
  else None.

(** [Date.parse] on the date-time string format of ECMAScript: a date
    ([YYYY], [YYYY-MM] or [YYYY-MM-DD], read as UTC), alone or followed by
    [T], a time ([HH:mm], [HH:mm:ss] or [HH:mm:ss.s...]) and a UTC offset. *)
Definition iso_parse (s : string) : option Z :=
  '(y, l) ← iso_year (list_ascii_of_string s);
  '(m, d, l) ← iso_month_day l;
  if (1 <=? m) && (m <=? 12) && (1 <=? d) && (d <=? days_in_month y m) then
    time ← match l with
           | [] => Some 0
           | "T"%char :: l1 => iso_time l1
           | _ => None
           end;
    let t := days_from_civil y m d * 86400000 + time in
    if Z.abs t <=? 8640000000000000 then Some t else None
  else None.

(** *** JSON *)

Definition quote : ascii := "034"%char.
Definition backslash : ascii := "092"%char.
Definition newline : ascii := "010"%char.

Definition hex_digit (n : Z) : ascii :=
  ascii_of_nat (Z.to_nat (if n <? 10 then 48 + n else 87 + n)).

Definition escape (c : ascii) : string :=
  let n := Z.of_nat (nat_of_ascii c) in
  if Ascii.eqb c quote then String backslash (String quote "")
  else if Ascii.eqb c backslash then String backslash (String backslash "")
  else if n =? 8 then String backslash "b"
  else if n =? 9 then String backslash "t"
  else if n =? 10 then String backslash "n"
  else if n =? 12 then String backslash "f"
  else if n =? 13 then String backslash "r"
  else if n <? 32
       then String backslash ("u00" +:+ String (hex_digit (n / 16)) (String (hex_digit (n mod 16)) ""))
  else String c "".

Fixpoint escape_all (s : string) : string :=
  match s with
  | EmptyString => ""
  | String c s' => escape c +:+ escape_all s'
  end.

Definition quoted (s : string) : string :=
  String quote (escape_all s +:+ String quote "").

Definition print_value (v : JValue) : string :=
  match v with
  | JNull => "null"
  | JBool true => "true"
  | JBool false => "false"
  | JNum n => pretty n
  | JStr s => quoted s
  end.

Definition print_member (kv : string * JValue) : string :=
  "  " +:+ quoted kv.1 +:+ ": " +:+ print_value kv.2.

Fixpoint join_lines (l : list string) : string :=
  match l with
  | [] => ""
  | [x] => x
  | x :: l' => x +:+ String "," (String newline (join_lines l'))
  end.

(** [JSON.stringify(o, null, 2)]: one member per line, indented by two. *)
Definition stringify (o : Obj) : string :=
  match members o with
  | [] => "{}"
  | l => String "{" (String newline (join_lines (map print_member l)))
         +:+ String newline "}"
  end.

Definition is_space (c : ascii) : bool :=
  let n := nat_of_ascii c in
  Nat.eqb n 32 || Nat.eqb n 9 || Nat.eqb n 10 || Nat.eqb n 13.

Fixpoint skip_ws (l : list ascii) : list ascii :=
  match l with
  | c :: l' => if is_space c then skip_ws l' else l
  | [] => []
  end.

Definition hex_value (c : ascii) : option Z :=
  let n := Z.of_nat (nat_of_ascii c) in
  if (48 <=? n) && (n <=? 57) then Some (n - 48)
  else if (97 <=? n) && (n <=? 102) then Some (n - 87)
  else if (65 <=? n) && (n <=? 70) then Some (n - 55)
  else None.

(** The character an escape letter stands for. *)
Definition unescape (c : ascii) : option ascii :=
  if Ascii.eqb c quote then Some quote
  else if Ascii.eqb c backslash then Some backslash
  else if Ascii.eqb c "/" then Some "/"%char
  else if Ascii.eqb c "b" then Some "008"%char
  else if Ascii.eqb c "t" then Some "009"%char
  else if Ascii.eqb c "n" then Some "010"%char
  else if Ascii.eqb c "f" then Some "012"%char
  else if Ascii.eqb c "r" then Some "013"%char
  else None.

(** The rest of a string literal, after its opening quote. *)
Fixpoint parse_string (l : list ascii) : option (string * list ascii) :=
  match l with
  | [] => None
  | c :: l' =>
      if Ascii.eqb c quote then Some ("", l')
      else if Ascii.eqb c backslash then
        match l' with
        | "u"%char :: "0"%char :: "0"%char :: h :: k :: l'' =>
            hi ← hex_value h;
            lo ← hex_value k;
            '(s, r) ← parse_string l'';
            Some (String (ascii_of_nat (Z.to_nat (16 * hi + lo))) s, r)
        | e :: l'' =>
            ch ← unescape e;
            '(s, r) ← parse_string l'';
            Some (String ch s, r)
        | [] => None
        end
      else if Nat.ltb (nat_of_ascii c) 32 then None
      else '(s, r) ← parse_string l'; Some (String c s, r)
  end.

Definition decimal (ds : list Z) : Z := fold_left (fun acc d => 10 * acc + d) ds 0.

(** The integer a double holds for the integer [n]: [n] itself up to
    [2^53], beyond that the nearest multiple of the spacing of doubles, ties
    to the even one. *)
Definition to_double (n : Z) : Z :=
  let a := Z.abs n in
  if a <? 2 ^ 53 then n
  else
    let e := Z.log2 a - 52 in
    let q := a / 2 ^ e in
    let r := a mod 2 ^ e in
    let half := 2 ^ (e - 1) in
    let q' := if (half <? r) || ((r =? half) && Z.odd q) then q + 1 else q in
    Z.sgn n * q' * 2 ^ e.

(** An integer literal, without leading zeros; a fraction or an exponent is
    outside the model. *)
Definition parse_number (l : list ascii) : option (Z * list ascii) :=
  let '(neg, l) := match l with
                   | "-"%char :: l' => (true, l')
                   | _ => (false, l)
                   end in
  match span_digits l with
  | ([], _) => None
  | (0 :: _ :: _, _) => None
  | (ds, r) =>
      match r with
      | "."%char :: _ | "e"%char :: _ | "E"%char :: _ => None
      | _ => Some (to_double (if neg then - decimal ds else decimal ds), r)
      end
  end.

Definition parse_value (l : list ascii) : option (JValue * list ascii) :=
  match l with
  | "n"%char :: "u"%char :: "l"%char :: "l"%char :: r => Some (JNull, r)
  | "t"%char :: "r"%char :: "u"%char :: "e"%char :: r => Some (JBool true, r)
  | "f"%char :: "a"%char :: "l"%char :: "s"%char :: "e"%char :: r => Some (JBool false, r)
  | c :: r =>
      if Ascii.eqb c quote
      then '(s, r') ← parse_string r; Some (JStr s, r')
      else '(n, r') ← parse_number l; Some (JNum n, r')
  | [] => None
  end.

(** The members of an object, [l] standing just before a member name; a
    repeated name keeps its last value. *)
Fixpoint parse_members (fuel : nat) (acc : Obj) (l : list ascii)
  : option (Obj * list ascii) :=
  match fuel with
  | O => None
  | S fuel' =>
      l ← expect quote (skip_ws l);
      '(k, l) ← parse_string l;
      l ← expect ":" (skip_ws l);
      '(v, l) ← parse_value (skip_ws l);
      match skip_ws l with
      | ","%char :: l' => parse_members fuel' (<[k := v]> acc) l'
      | "}"%char :: l' => Some (<[k := v]> acc, l')
      | _ => None
      end
  end.

Definition parse (raw : string) : option Json :=
  let l := skip_ws (list_ascii_of_string raw) in
  '(doc, r) ← match l with
              | "{"%char :: l' =>
                  match skip_ws l' with
                  | "}"%char :: r => Some (JObject ∅, r)
                  | _ => '(o, r) ← parse_members (length l') ∅ l'; Some (JObject o, r)
                  end
              | _ => '(v, r) ← parse_value l; Some (JAtom v, r)
              end;
  match skip_ws r with
  | [] => Some doc
  | _ => None
  end.

End Node.

Global Instance node : Runtime := {|
  Date_parse := Node.iso_parse;
  toISOString := Node.iso_format;
  JSON_parse := Node.parse;
  JSON_stringify := Node.stringify
|}.

(** [!sessionId] for the value of [response.headers['ubi-sessionid']]. *)
Definition header_missing (h : option string) : bool :=
  match h with
  | Some v => String.eqb v ""
  | None => true
  end.

(** ** [src/http/ubi-auth.ts] *)
Module UbiAuth.

Definition UbiAppId : Type := string.

(** The private fields of the class; an unset field is [None]. *)
Record UbiLoginManager : Type := mkManager {
  token : option JValue;
  sessionId : option JValue;
  lastLoginTime : option Z
}.

(** The exported singleton and the requests it has sent so far (the value of
    the [Ubi-AppId] header of each, oldest first). *)
Record State : Type := mkState {
  this : UbiLoginManager;
  sent : list UbiAppId
}.

Definition shouldReauthenticate (this : UbiLoginManager) (now : Z) : bool :=
  negb (truthy_opt (token this))
  || negb (truthy_opt (sessionId this))
  || match lastLoginTime this with
     | None => true
     | Some t => (t =? 0) || (30 * 60 * 1000 <? now - t)
     end.

Definition sending (appId : UbiAppId) (s : State) : State :=
  {| this := this s; sent := sent s ++ [appId] |}.

(** [await axios(httpConfig)]: the request goes out, [reply] comes back. *)
Definition axios (appId : UbiAppId) (reply : Transport) : M State Response :=
  fun s =>
    (match settle reply with
     | inr response => Normal response
     | inl error => Abrupt error
     end,
     sending appId s).

(** [console.log] of the response is output only and is left out. *)
Definition requestLogin (appId : UbiAppId) (reply : Transport)
  : M State (option Obj) :=
  try_catch
    (response ← axios appId reply;
     let sessionId := headers response !! "ubi-sessionid" in
     if header_missing sessionId
     then throw (Error "Missing Ubi-SessionId header in login response.")
     else mret (Some (<["sessionId" := JStr (default "" sessionId)]> (data response))))
    (fun error =>
       if isAxiosError error then
         match response_status error with
         | Some status =>
             if status =? 0 then throw error
             else if status =? 401
             then throw (Error "Unauthorized: Incorrect email or password.")
             else if status =? 409
             then throw (Error "Conflict: Captcha or other challenge required.")
             else if status =? 429
             then throw (Error "Too many requests: Rate limit exceeded.")
             else throw (Error ("Login failed with status " +:+ pretty status))
         | None => throw error
         end
       else throw error).

(** [now] is the clock read by [shouldReauthenticate], [now'] the one read
    after the login has returned. *)
Definition getToken (appId : UbiAppId) (now : Z) (reply : Transport) (now' : Z)
  : M State (option JValue * option JValue) :=
  s ← get;
  (if shouldReauthenticate (this s) now then
     result ← requestLogin appId reply;
     match result with
     | None => throw (Error "Login failed. Cannot retrieve token.")
     | Some result =>
         modify (fun s =>
           {| this := {| token := result !! "ticket";
                         sessionId := result !! "sessionId";
                         lastLoginTime := Some now' |};
              sent := sent s |})
     end
   else mret tt);;
  s ← get;
  mret (token (this s), sessionId (this s)).

End UbiAuth.

(** ** The managers that keep the credentials in files *)

(** The enumeration [UbiAppId] of [utilities/interfaces/enums]; its two
    members are used as the value of the [Ubi-AppId] header. *)
Module UbiAppId.
Inductive t : Type := v2 | v3.
End UbiAppId.

(** ['v2' | 'v3'] *)
Inductive Version : Type := V2 | V3.

Global Instance UbiAppId_eq_dec : EqDecision UbiAppId.t.
Proof. solve_decision. Defined.

Global Instance Version_eq_dec : EqDecision Version.
Proof. solve_decision. Defined.

(** The files of the working directory, whether it accepts a write, the
    requests sent so far and what [console.error] has printed. *)
Record World : Type := mkWorld {
  disk : gmap string string;
  writable : bool;
  sent : list UbiAppId.t;
  errors : list (option string * Thrown)
}.

(** What one run of [Login()] meets: the answer of the network to a request
    of each application, and the clock at each [Date.now()]. *)
Record Env : Type := mkEnv {
  reply : UbiAppId.t -> Transport;
  load_time : Version -> Z;
  login_time : UbiAppId.t -> Z
}.

(** The three ways the world changes. *)
Definition writing (path text : string) (w : World) : World :=
  {| disk := <[path := text]> (disk w); writable := writable w;
     sent := sent w; errors := errors w |}.

Definition sending (appId : UbiAppId.t) (w : World) : World :=
  {| disk := disk w; writable := writable w; sent := sent w ++ [appId];
     errors := errors w |}.

Definition printing (label : option string) (error : Thrown) (w : World) : World :=
  {| disk := disk w; writable := writable w; sent := sent w;
     errors := errors w ++ [(label, error)] |}.

Definition fs_readFile (path : string) : M World string :=
  fun w =>
    match disk w !! path with
    | Some raw => (Normal raw, w)
    | None => (Abrupt (SystemError "ENOENT"), w)
    end.

Definition fs_writeFile (path text : string) : M World unit :=
  fun w =>
    if writable w
    then (Normal tt, writing path text w)
    else (Abrupt (SystemError "EACCES"), w).

Definition console_error (label : option string) (error : Thrown) : M World unit :=
  modify (printing label error).

(** [await axios(httpConfig)]: the request goes out, [reply] comes back. *)
Definition axios (appId : UbiAppId.t) (reply : Transport) : M World Response :=
  fun w =>
    (match settle reply with
     | inr response => Normal response
     | inl error => Abrupt error
     end,
     sending appId w).

(** The [catch] block shared by the three file managers: they differ in
    the text thrown for 429 only. *)
Definition rethrow (too_many : string) (error : Thrown) : M World (option Obj) :=
  if isAxiosError error then
    match response_status error with
    | Some status =>
        if status =? 0 then throw error
        else if status =? 401 then throw (Literal "Account does not exist.")
        else if status =? 409 then throw (Literal "Captcha needed.")
        else if status =? 429 then throw (Literal too_many)
        else throw error
    | None => throw error
    end
  else throw error.

Definition TOKEN_PATH_V2 : string := "private/auth_token_v2.json".
Definition TOKEN_PATH_V3 : string := "private/auth_token_v3.json".

(** The file and the application of a version. *)
Definition token_path (version : Version) : string :=
  match version with V2 => TOKEN_PATH_V2 | V3 => TOKEN_PATH_V3 end.

Definition app_of (version : Version) : UbiAppId.t :=
  match version with V2 => UbiAppId.v2 | V3 => UbiAppId.v3 end.

(** *** The manager that always logs in *)
Module Legacy.
Section WithSave.

(** [SaveJSONToFile] of [utilities/file-stream]. *)
Variable SaveJSONToFile : string -> Obj -> M World unit.

(** [console.log] of the response is output only and is left out. *)
Definition RequestLogin (appId : UbiAppId.t) (reply : Transport)
  : M World (option Obj) :=
  try_catch
    (response ← axios appId reply;
     let sessionId := headers response !! "ubi-sessionid" in
     if header_missing sessionId
     then throw (Error "Missing Ubi-SessionId header in login response.")
     else mret (Some (<["sessionId" := JStr (default "" sessionId)]> (data response))))
    (rethrow "Too many requests.").

Definition Login (env : Env) : M World unit :=
  try_catch
    (tokenV2 ← RequestLogin UbiAppId.v2 (reply env UbiAppId.v2);
     match tokenV2 with
     | Some tokenV2 => SaveJSONToFile "private/auth_token_v2.json" tokenV2
     | None => mret tt
     end;;
     tokenV3 ← RequestLogin UbiAppId.v3 (reply env UbiAppId.v3);
     match tokenV3 with
     | Some tokenV3 => SaveJSONToFile "private/auth_token_v3.json" tokenV3
     | None => mret tt
     end)
    (fun error => console_error None error).

End WithSave.
End Legacy.

(** *** The manager with the file cache and the default expiration *)
Module Cached.
Section WithRuntime.
Context `{Runtime}.

(** [now] is the clock read by [Date.now()].  Both a condition that fails
    and anything thrown in the [try] block end in [return null]. *)
Definition loadToken (version : Version) (now : Z)
  : M World (option Obj) :=
  let filePath := match version with V2 => TOKEN_PATH_V2 | V3 => TOKEN_PATH_V3 end in
  try_catch
    (raw ← fs_readFile filePath;
     match JSON_parse raw with
     | None => throw SyntaxError
     | Some (JAtom JNull) => throw TypeError
     | Some (JAtom _) => mret None
     | Some (JObject token) =>
         match token !! "expiration" with
         | Some expiration =>
             if truthy expiration
                && js_gt (Date_getTime expiration) (now + 5 * 60 * 1000)
             then mret (Some token)
             else mret None
         | None => mret None
         end
     end)
    (fun _ => mret None).

Definition saveToken (version : Version) (token : Obj) : M World unit :=
  let filePath := match version with V2 => TOKEN_PATH_V2 | V3 => TOKEN_PATH_V3 end in
  fs_writeFile filePath (JSON_stringify token).

(** [now] is the clock read when the response is in.  Reading
    [response.data.expiration] throws when the body is [null]; like
    everything thrown in the [try] block it goes through the [catch]. *)
Definition RequestLogin (appId : UbiAppId.t) (reply : Transport) (now : Z)
  : M World (option Obj) :=
  try_catch
    (response ← axios appId reply;
     let sessionId := headers response !! "ubi-sessionid" in
     if header_missing sessionId
     then throw (Error "Missing Ubi-SessionId header in login response.")
     else
       match body response with
       | NullBody => throw TypeError
       | ObjectBody _ =>
           let expiration :=
             js_or (data response !! "expiration")
                   (JStr (toISOString (now + 30 * 60 * 1000))) in
           mret (Some (<["expiration" := expiration]>
                         (<["sessionId" := JStr (default "" sessionId)]>
                            (data response))))
       end)
    (rethrow "Too many requests. Rate limit hit.").

Definition Login (env : Env) : M World unit :=
  try_catch
    (tokenV2 ← loadToken V2 (load_time env V2);
     match tokenV2 with
     | None =>
         tokenV2 ← RequestLogin UbiAppId.v2 (reply env UbiAppId.v2)
                                 (login_time env UbiAppId.v2);
         match tokenV2 with
         | Some tokenV2 => saveToken V2 tokenV2
         | None => mret tt
         end
     | Some _ => mret tt
     end;;
     tokenV3 ← loadToken V3 (load_time env V3);
     match tokenV3 with
     | None =>
         tokenV3 ← RequestLogin UbiAppId.v3 (reply env UbiAppId.v3)
                                 (login_time env UbiAppId.v3);
         match tokenV3 with
         | Some tokenV3 => saveToken V3 tokenV3
         | None => mret tt
         end
     | Some _ => mret tt
     end)
    (fun error => console_error (Some "Login failed:") error).

(** The block of [Login] for one version; [Login] is the block for [V2]
    followed by the block for [V3] inside one [try] (lemma [Login_blocks]). *)
Definition refresh (version : Version) (env : Env) : M World unit :=
  token ← loadToken version (load_time env version);
  match token with
  | None =>
      token ← RequestLogin (app_of version) (reply env (app_of version))
                            (login_time env (app_of version));
      match token with
      | Some token => saveToken version token
      | None => mret tt
      end
  | Some _ => mret tt
  end.

End WithRuntime.
End Cached.

(** *** The manager with the file cache and no default expiration

    [loadToken] and [saveToken] are repeated word for word. *)
Module CachedPlain.
Section WithRuntime.
Context `{Runtime}.

Definition loadToken (version : Version) (now : Z)
  : M World (option Obj) :=
  let filePath := match version with V2 => TOKEN_PATH_V2 | V3 => TOKEN_PATH_V3 end in
  try_catch
    (raw ← fs_readFile filePath;
     match JSON_parse raw with
     | None => throw SyntaxError
     | Some (JAtom JNull) => throw TypeError
     | Some (JAtom _) => mret None
     | Some (JObject token) =>
         match token !! "expiration" with
         | Some expiration =>
             if truthy expiration
                && js_gt (Date_getTime expiration) (now + 5 * 60 * 1000)
             then mret (Some token)
             else mret None
         | None => mret None
         end
     end)
    (fun _ => mret None).

Definition saveToken (version : Version) (token : Obj) : M World unit :=
  let filePath := match version with V2 => TOKEN_PATH_V2 | V3 => TOKEN_PATH_V3 end in
  fs_writeFile filePath (JSON_stringify token).

Definition RequestLogin (appId : UbiAppId.t) (reply : Transport)
  : M World (option Obj) :=
  try_catch
    (response ← axios appId reply;
     let sessionId := headers response !! "ubi-sessionid" in
     if header_missing sessionId
     then throw (Error "Missing Ubi-SessionId header in login response.")
     else mret (Some (<["sessionId" := JStr (default "" sessionId)]> (data response))))
    (rethrow "‚ùå Too many requests. Rate limit hit.").

Definition Login (env : Env) : M World unit :=
  try_catch
    (tokenV2 ← loadToken V2 (load_time env V2);
     match tokenV2 with
     | None =>
         tokenV2 ← RequestLogin UbiAppId.v2 (reply env UbiAppId.v2);
         match tokenV2 with
         | Some tokenV2 => saveToken V2 tokenV2
         | None => mret tt
         end
     | Some _ => mret tt
     end;;
     tokenV3 ← loadToken V3 (load_time env V3);
     match tokenV3 with
     | None =>
         tokenV3 ← RequestLogin UbiAppId.v3 (reply env UbiAppId.v3);
         match tokenV3 with
         | Some tokenV3 => saveToken V3 tokenV3
         | None => mret tt
         end
     | Some _ => mret tt
     end)
    (fun error => console_error (Some "Login failed:") error).

End WithRuntime.
End CachedPlain.

(** ** The vocabulary of the specification *)

(** The failure kinds of the error taxonomy. *)
Inductive ErrorKind : Type :=
| Unauthorized
| ChallengeRequired
| RateLimited
| Unknown (status : Z)
| ProtocolViolation.

(** The taxonomy: which kind a status other than 2xx stands for. *)
Definition taxonomy (status : Z) : ErrorKind :=
  if status =? 401 then Unauthorized
  else if status =? 409 then ChallengeRequired
  else if status =? 429 then RateLimited
  else Unknown status.

(** Whether the thrown value [e] is the way one of the managers reports
    the kind [k]: the message of its [Error], the string it throws, or, for
    [Unknown], the axios error that holds the response. *)
Definition surfaces_as (e : Thrown) (k : ErrorKind) : bool :=
  match k, e with
  | Unauthorized, Error m => String.eqb m "Unauthorized: Incorrect email or password."
  | Unauthorized, Literal m => String.eqb m "Account does not exist."
  | ChallengeRequired, Error m => String.eqb m "Conflict: Captcha or other challenge required."
  | ChallengeRequired, Literal m => String.eqb m "Captcha needed."
  | RateLimited, Error m => String.eqb m "Too many requests: Rate limit exceeded."
  | RateLimited, Literal m =>
      String.eqb m "Too many requests." || String.eqb m "Too many requests. Rate limit hit."
  | Unknown s, Error m => String.eqb m ("Login failed with status " +:+ pretty s)
  | Unknown s, AxiosError (Some r) => status r =? s
  | ProtocolViolation, Error m => String.eqb m "Missing Ubi-SessionId header in login response."
  | _, _ => false
  end.

(** A login attempt fails when the response is not 2xx, when it lacks the
    session header, or when there is no response at all.  These are the
    failures the four logins share; the manager with the default has one
    more ([grants] below). *)
Definition login_fails (t : Transport) : bool :=
  match settle t with
  | inl _ => true
  | inr r => header_missing (headers r !! "ubi-sessionid")
  end.

(** The credential of the specification: token, session identifier, an
    optional expiration, and the moment it was obtained. *)
Record Credential : Type := mkCredential {
  cred_token : option JValue;
  cred_sessionId : option JValue;
  cred_expiration : option Z;
  cred_obtained : Z
}.

(** The validity rule, following the specification's words: present, and
    either no expiration and obtained within the last 30 minutes, or an
    expiration with [now + 5 minutes < expiration]. *)
Definition spec_valid (now : Z) (cached : option Credential) : bool :=
  match cached with
  | None => false
  | Some c =>
      match cred_expiration c with
      | None => now - cred_obtained c <=? 30 * 60 * 1000
      | Some expiration => now + 5 * 60 * 1000 <? expiration
      end
  end.

(** The credential held by the in-memory manager: present when its three
    fields are set; it has no expiration. *)
Definition memory_credential (this : UbiAuth.UbiLoginManager) : option Credential :=
  match UbiAuth.lastLoginTime this with
  | Some t =>
      if truthy_opt (UbiAuth.token this) && truthy_opt (UbiAuth.sessionId this)
         && negb (t =? 0)
      then Some {| cred_token := UbiAuth.token this;
                   cred_sessionId := UbiAuth.sessionId this;
                   cred_expiration := None;
                   cred_obtained := t |}
      else None
  | None => None
  end.

(** The credential held by a token file written at [obtained]: present when
    the file is a JSON object; its expiration is the time value of the
    member [expiration], if there is one. *)
Definition file_credential `{Runtime} (file : option string) (obtained : Z)
  : option Credential :=
  match file with
  | Some raw =>
      match JSON_parse raw with
      | Some (JObject o) =>
          Some {| cred_token := o !! "ticket";
                  cred_sessionId := o !! "sessionId";
                  cred_expiration :=
                    match o !! "expiration" with
                    | Some e => if truthy e then Date_getTime e else None
                    | None => None
                    end;
                  cred_obtained := obtained |}
      | _ => None
      end
  | None => None
  end.

(** The condition of [loadToken] on a parsed document. *)
Definition fresh `{Runtime} (token : Obj) (now : Z) : bool :=
  match token !! "expiration" with
  | Some expiration =>
      truthy expiration && js_gt (Date_getTime expiration) (now + 5 * 60 * 1000)
  | None => false
  end.

(** What [loadToken] finds in a token file: the parsed object, when the
    file is one and its condition holds. *)
Definition peek `{Runtime} (file : option string) (now : Z)
  : option Obj :=
  match file with
  | Some raw =>
      match JSON_parse raw with
      | Some (JObject token) => if fresh token now then Some token else None
      | _ => None
      end
  | None => None
  end.

(** The number of requests sent for an application. *)
Definition requests (appId : UbiAppId.t) (w : World) : nat :=
  count_occ UbiAppId_eq_dec (sent w) appId.

(** ** States and answers used to run the managers *)
Module Scenario.

(** 2024-01-01T00:00:00.000Z *)
Definition t0 : Z := 1704067200000.

(** The singleton as the module creates it. *)
Definition fresh_manager : UbiAuth.State :=
  {| UbiAuth.this := {| UbiAuth.token := None; UbiAuth.sessionId := None;
                        UbiAuth.lastLoginTime := None |};
     UbiAuth.sent := [] |}.

(** The singleton after a first [getToken] that logged in at [t0]. *)
Definition logged_in (appId ticket sid : string) : UbiAuth.State :=
  {| UbiAuth.this := {| UbiAuth.token := Some (JStr ticket);
                        UbiAuth.sessionId := Some (JStr sid);
                        UbiAuth.lastLoginTime := Some (t0 + 500) |};
     UbiAuth.sent := [appId] |}.

(** An empty, writable directory. *)
Definition idle : World :=
  {| disk := ∅; writable := true; sent := []; errors := [] |}.

(** A session created: 200, the session header, a ticket. *)
Definition session (ticket sid : string) (more : Obj) : Response :=
  {| status := 200; headers := {["ubi-sessionid" := sid]};
     body := ObjectBody (<["ticket" := JStr ticket]> more) |}.

(** A refusal with no header and an empty body. *)
Definition refused (status : Z) : Response :=
  {| status := status; headers := ∅; body := ObjectBody ∅ |}.

(** Every request gets the answer [t]; files are read at [now] and the
    answers are in half a second later. *)
Definition always (t : Transport) (now : Z) : Env :=
  {| reply := fun _ => t; load_time := fun _ => now; login_time := fun _ => now + 500 |}.

(** The first application is answered by [a], the second by [b]. *)
Definition each (a b : Transport) (now : Z) : Env :=
  {| reply := fun appId => match appId with UbiAppId.v2 => a | UbiAppId.v3 => b end;
     load_time := fun _ => now; login_time := fun _ => now + 500 |}.

(** A credential as the server sends it when it gives no expiration. *)
Definition plain_credential : Obj :=
  <["sessionId" := JStr "S"]> {["ticket" := JStr "T"]}.

(** A token file whose credential expires at [expiration]. *)
Definition stored (version : Version) (expiration : Z) (w : World) : World :=
  writing (token_path version)
          (JSON_stringify (<["expiration" := JStr (toISOString expiration)]> plain_credential))
          w.

(** Both token files hold a credential that expired a second before [t0]. *)
Definition expired_both : World :=
  stored V3 (t0 - 1000) (stored V2 (t0 - 1000) idle).

(** Both token files hold a credential that expires an hour after [t0]. *)
Definition valid_both : World :=
  stored V3 (t0 + 3600000) (stored V2 (t0 + 3600000) idle).

(** The directory after the manager without a default has logged in at
    [t0], the server sending no expiration. *)
Definition after_plain_login : World :=
  (CachedPlain.Login (always (Answered (session "T" "S" ∅)) t0) idle).2.

End Scenario.

(** ** Further vocabulary *)

(** Whether [loadToken] of the manager with the default finds a credential
    to reuse. *)
Definition reusable `{Runtime} (version : Version) (now : Z) (w : World) : bool :=
  match (Cached.loadToken version now w).1 with
  | Normal (Some _) => true
  | _ => false
  end.

(** Whether the answer is a response whose body is the JSON [null]. *)
Definition null_body (t : Transport) : bool :=
  match t with
  | Answered r => match body r with NullBody => true | ObjectBody _ => false end
  | Unreachable _ => false
  end.

(** The answers on which the login of the manager with the default returns
    a credential: a response that is 2xx, has the session header, and whose
    body is not [null] (lemmas [RequestLogin_ok] and [RequestLogin_throws]). *)
Definition grants (t : Transport) : bool :=
  negb (login_fails t) && negb (null_body t).

(** The block of [Login] for one version in the manager without the
    default; [Login] is the block for [V2] followed by the block for [V3]
    inside one [try] (lemma [plain_Login_world]). *)
Definition plain_refresh `{Runtime} (version : Version) (env : Env) : M World unit :=
  token ← CachedPlain.loadToken version (load_time env version);
  match token with
  | None =>
      token ← CachedPlain.RequestLogin (app_of version) (reply env (app_of version));
      match token with
      | Some token => CachedPlain.saveToken version token
      | None => mret tt
      end
  | Some _ => mret tt
  end.

(** Modelled from the spec: [SaveJSONToFile] of [utilities/file-stream] is
    not among the sources; the persistence contract is
    [save(variant, Credential) -> success/failure], a JSON file per variant.
    It is used to run the manager that always logs in, nowhere else. *)
Definition save_as_json `{Runtime} (path : string) (o : Obj)
  : M World unit :=
  fs_writeFile path (JSON_stringify o).

(** Further states and answers. *)
Module Cases.

(** A session created whose body has a [sessionId] of its own. *)
Definition session_with_body_id : Response :=
  {| status := 200; headers := {["ubi-sessionid" := "H"]};
     body := ObjectBody (<["sessionId" := JStr "B"]> {["ticket" := JStr "T"]}) |}.

(** A session created whose body has no ticket. *)
Definition session_without_ticket : Response :=
  {| status := 200; headers := {["ubi-sessionid" := "S"]};
     body := ObjectBody {["profileId" := JStr "P"]} |}.

(** A session created whose body is the JSON [null]. *)
Definition session_null : Response :=
  {| status := 200; headers := {["ubi-sessionid" := "S"]}; body := NullBody |}.

(** An empty directory that refuses every write. *)
Definition read_only : World :=
  {| disk := ∅; writable := false; sent := []; errors := [] |}.

End Cases.

(** * Proofs *)

(** ** Objects *)

Lemma get_member_assign k v l r k' :
  assign_member k v l = Some r ->
  get_member k' r = if String.eqb k' k then Some v else get_member k' l.
Proof.
  revert r. induction l as [|[k0 v0] l IH]; intros r; simpl; [discriminate|].
  destruct (String.eqb k k0) eqn:E.
  - intros [= <-]. simpl. apply String.eqb_eq in E as <-.
    now destruct (String.eqb k' k).
  - destruct (assign_member k v l) as [r'|]; [|discriminate].
    intros [= <-]. simpl. rewrite (IH r' eq_refl).
    destruct (String.eqb k' k0) eqn:E0; [|reflexivity].
    apply String.eqb_eq in E0 as ->. rewrite String.eqb_sym in E. now rewrite E.
Qed.

Lemma get_member_add k v l k' :
  assign_member k v l = None ->
  get_member k' (add_member k v l)
  = if String.eqb k' k then Some v else get_member k' l.
Proof.
  induction l as [|[k0 v0] l IH]; simpl; [reflexivity|].
  destruct (String.eqb k k0) eqn:E; [discriminate|].
  destruct (assign_member k v l) as [r'|]; [discriminate|]. intros _.
  destruct (comes_before k k0); simpl; [reflexivity|].
  rewrite (IH eq_refl).
  destruct (String.eqb k' k0) eqn:E0; [|reflexivity].
  apply String.eqb_eq in E0 as ->. rewrite String.eqb_sym in E. now rewrite E.
Qed.

Lemma obj_lookup_insert (o : Obj) k v k' :
  (<[k := v]> o) !! k' = if String.eqb k' k then Some v else o !! k'.
Proof.
  unfold insert, Obj_insert, lookup, Obj_lookup.
  destruct (assign_member k v (members o)) as [r|] eqn:E; simpl.
  - now apply get_member_assign.
  - now apply get_member_add.
Qed.

Lemma obj_lookup_insert_eq (o : Obj) k v : (<[k := v]> o) !! k = Some v.
Proof. rewrite obj_lookup_insert. now rewrite String.eqb_refl. Qed.

Lemma obj_lookup_insert_ne (o : Obj) k k' v :
  k <> k' -> (<[k := v]> o) !! k' = o !! k'.
Proof.
  intros Hne. rewrite obj_lookup_insert.
  destruct (String.eqb k' k) eqn:E; [|reflexivity].
  apply String.eqb_eq in E. congruence.
Qed.

(** ** Running the monad *)

Create HintDb run.
#[global] Hint Unfold try_catch throw get modify mbind mret M_bind M_ret : run.
#[global] Hint Unfold fs_readFile fs_writeFile console_error axios rethrow : run.
#[global] Hint Unfold UbiAuth.axios : run.

Ltac run := repeat (autounfold with run in *; cbn beta iota zeta in * ).

Lemma settle_Normal t r :
  settle t = inr r -> t = Answered r /\ validateStatus (status r) = true.
Proof.
  destruct t as [r'|code]; simpl; [|discriminate].
  destruct (validateStatus (status r')) eqn:E; [|discriminate].
  intros [= <-]. auto.
Qed.

Lemma settle_rejects r :
  validateStatus (status r) = false -> settle (Answered r) = inl (AxiosError (Some r)).
Proof. intros E. simpl. now rewrite E. Qed.

Lemma settle_accepts r :
  validateStatus (status r) = true -> settle (Answered r) = inr r.
Proof. intros E. simpl. now rewrite E. Qed.

Lemma login_fails_cases t :
  login_fails t = false ->
  exists r, t = Answered r /\ validateStatus (status r) = true
            /\ header_missing (headers r !! "ubi-sessionid") = false.
Proof.
  unfold login_fails. destruct (settle t) as [e|r] eqn:E; [discriminate|].
  intros Hh. apply settle_Normal in E as [-> Hv]. eauto.
Qed.

(** ** The [catch] block of the file managers *)

Lemma rethrow_status too_many r w :
  exists e, rethrow too_many (AxiosError (Some r)) w = (Abrupt e, w)
    /\ (too_many = "Too many requests." \/ too_many = "Too many requests. Rate limit hit." ->
        surfaces_as e (taxonomy (status r)) = true).
Proof.
  unfold rethrow, throw, taxonomy. simpl.
  destruct (status r =? 0) eqn:E0.
  { eexists; split; [reflexivity|]. intros _.
    apply Z.eqb_eq in E0. rewrite E0. simpl. now rewrite E0. }
  destruct (status r =? 401); [eexists; split; [reflexivity|reflexivity]|].
  destruct (status r =? 409); [eexists; split; [reflexivity|reflexivity]|].
  destruct (status r =? 429).
  { eexists; split; [reflexivity|]. intros [->| ->]; reflexivity. }
  eexists; split; [reflexivity|]. intros _. simpl. apply Z.eqb_refl.
Qed.

Lemma rethrow_throws too_many e w :
  exists e', rethrow too_many e w = (Abrupt e', w).
Proof.
  unfold rethrow, throw.
  destruct (isAxiosError e); [|eauto].
  destruct (response_status e) as [st|]; [|eauto].
  destruct (st =? 0); [eauto|].
  destruct (st =? 401); [eauto|].
  destruct (st =? 409); [eauto|].
  destruct (st =? 429); eauto.
Qed.

(** ** [ubi-auth.ts] *)
Module UbiAuthFacts.
Import UbiAuth.

Lemma requestLogin_state appId reply s :
  (requestLogin appId reply s).2 = sending appId s.
Proof.
  unfold requestLogin. run.
  destruct (settle reply) as [e|r]; simpl.
  - destruct (isAxiosError e); [|reflexivity].
    destruct (response_status e) as [st|]; [|reflexivity].
    destruct (st =? 0); [reflexivity|].
    destruct (st =? 401); [reflexivity|].
    destruct (st =? 409); [reflexivity|].
    destruct (st =? 429); reflexivity.
  - destruct (header_missing _); reflexivity.
Qed.

Lemma requestLogin_status appId r s :
  validateStatus (status r) = false ->
  exists e, (requestLogin appId (Answered r) s).1 = Abrupt e
            /\ surfaces_as e (taxonomy (status r)) = true.
Proof.
  intros Hv. unfold requestLogin. run. rewrite (settle_rejects _ Hv). simpl.
  unfold taxonomy.
  destruct (status r =? 0) eqn:E0.
  { eexists; split; [reflexivity|]. apply Z.eqb_eq in E0. rewrite E0. simpl. now rewrite E0. }
  destruct (status r =? 401); [eexists; split; reflexivity|].
  destruct (status r =? 409); [eexists; split; reflexivity|].
  destruct (status r =? 429); [eexists; split; reflexivity|].
  eexists; split; [reflexivity|]. simpl. apply String.eqb_refl.
Qed.

Lemma requestLogin_no_header appId r s :
  validateStatus (status r) = true ->
  header_missing (headers r !! "ubi-sessionid") = true ->
  (requestLogin appId (Answered r) s).1
  = Abrupt (Error "Missing Ubi-SessionId header in login response.").
Proof.
  intros Hv Hh. unfold requestLogin. run. rewrite (settle_accepts _ Hv). simpl.
  rewrite Hh. reflexivity.
Qed.

Lemma requestLogin_fails appId reply s :
  login_fails reply = true -> exists e, (requestLogin appId reply s).1 = Abrupt e.
Proof.
  unfold login_fails, requestLogin. run.
  destruct (settle reply) as [e|r]; simpl.
  - intros _.
    destruct (isAxiosError e); [|eauto].
    destruct (response_status e) as [st|]; [|eauto].
    destruct (st =? 0); [eauto|].
    destruct (st =? 401); [eauto|].
    destruct (st =? 409); [eauto|].
    destruct (st =? 429); eauto.
  - intros ->. eauto.
Qed.

Lemma requestLogin_ok appId reply s :
  login_fails reply = false ->
  exists r, reply = Answered r
    /\ (requestLogin appId reply s).1
       = Normal (Some (<["sessionId" := JStr (default "" (headers r !! "ubi-sessionid"))]>
                         (data r))).
Proof.
  intros Hf. destruct (login_fails_cases _ Hf) as (r & -> & Hv & Hh).
  exists r. split; [reflexivity|].
  unfold requestLogin. run. rewrite (settle_accepts _ Hv). simpl.
  rewrite Hh. reflexivity.
Qed.

Lemma getToken_cached appId now reply now' s :
  shouldReauthenticate (this s) now = false ->
  getToken appId now reply now' s
  = (Normal (token (this s), sessionId (this s)), s).
Proof. intros Hc. unfold getToken. run. rewrite Hc. reflexivity. Qed.

Lemma getToken_throws appId now reply now' s e :
  shouldReauthenticate (this s) now = true ->
  (requestLogin appId reply s).1 = Abrupt e ->
  getToken appId now reply now' s = (Abrupt e, sending appId s).
Proof.
  intros Hc He. unfold getToken. run. rewrite Hc.
  pose proof (requestLogin_state appId reply s) as Hs.
  destruct (requestLogin appId reply s) as [c s1]. simpl in *. subst. reflexivity.
Qed.

Lemma getToken_logs_in appId now reply now' s result :
  shouldReauthenticate (this s) now = true ->
  (requestLogin appId reply s).1 = Normal (Some result) ->
  getToken appId now reply now' s
  = (Normal (result !! "ticket", result !! "sessionId"),
     {| this := {| token := result !! "ticket";
                   sessionId := result !! "sessionId";
                   lastLoginTime := Some now' |};
        sent := sent s ++ [appId] |}).
Proof.
  intros Hc He. unfold getToken. run. rewrite Hc.
  pose proof (requestLogin_state appId reply s) as Hs.
  destruct (requestLogin appId reply s) as [c s1]. simpl in *. subst. reflexivity.
Qed.

End UbiAuthFacts.

(** ** The file managers *)

Lemma Legacy_RequestLogin_world appId reply w :
  (Legacy.RequestLogin appId reply w).2 = sending appId w.
Proof.
  unfold Legacy.RequestLogin. unfold try_catch, mbind, M_bind, axios.
  destruct (settle reply) as [e|r]; simpl.
  - destruct (rethrow_throws "Too many requests." e (sending appId w)) as [e' ->].
    reflexivity.
  - destruct (header_missing _); reflexivity.
Qed.

Lemma Legacy_RequestLogin_status appId r w :
  validateStatus (status r) = false ->
  exists e, (Legacy.RequestLogin appId (Answered r) w).1 = Abrupt e
            /\ surfaces_as e (taxonomy (status r)) = true.
Proof.
  intros Hv. unfold Legacy.RequestLogin. unfold try_catch, mbind, M_bind, axios.
  rewrite (settle_rejects _ Hv).
  destruct (rethrow_status "Too many requests." r (sending appId w)) as (e & -> & He).
  exists e. split; [reflexivity|]. apply He. now left.
Qed.

Lemma Legacy_RequestLogin_no_header appId r w :
  validateStatus (status r) = true ->
  header_missing (headers r !! "ubi-sessionid") = true ->
  (Legacy.RequestLogin appId (Answered r) w).1
  = Abrupt (Error "Missing Ubi-SessionId header in login response.").
Proof.
  intros Hv Hh. unfold Legacy.RequestLogin. run. rewrite (settle_accepts _ Hv).
  simpl. rewrite Hh. reflexivity.
Qed.

Section CachedFacts.
Context `{Runtime}.
Import Cached.

Lemma loadToken_run version now w :
  loadToken version now w = (Normal (peek (disk w !! token_path version) now), w).
Proof.
  unfold loadToken, peek, fresh, token_path. run.
  destruct (disk w !! _) as [raw|]; [|reflexivity].
  destruct (JSON_parse raw) as [[[]|token]|]; try reflexivity.
  destruct (token !! "expiration") as [e|]; [|reflexivity].
  destruct (truthy e && _); reflexivity.
Qed.

Lemma saveToken_run version token w :
  saveToken version token w
  = if writable w
    then (Normal tt, writing (token_path version) (JSON_stringify token) w)
    else (Abrupt (SystemError "EACCES"), w).
Proof. unfold saveToken, token_path, fs_writeFile. destruct version; reflexivity. Qed.

Lemma RequestLogin_world appId reply now w :
  (RequestLogin appId reply now w).2 = sending appId w.
Proof.
  unfold RequestLogin. unfold try_catch, mbind, M_bind, axios.
  destruct (settle reply) as [e|r]; simpl.
  - destruct (rethrow_throws "Too many requests. Rate limit hit." e (sending appId w))
      as [e' ->].
    reflexivity.
  - destruct (header_missing _); [reflexivity|]. destruct (body r); reflexivity.
Qed.

Lemma RequestLogin_status appId r now w :
  validateStatus (status r) = false ->
  exists e, (RequestLogin appId (Answered r) now w).1 = Abrupt e
            /\ surfaces_as e (taxonomy (status r)) = true.
Proof.
  intros Hv. unfold RequestLogin. unfold try_catch, mbind, M_bind, axios.
  rewrite (settle_rejects _ Hv).
  destruct (rethrow_status "Too many requests. Rate limit hit." r (sending appId w))
    as (e & -> & He).
  exists e. split; [reflexivity|]. apply He. now right.
Qed.

Lemma RequestLogin_no_header appId r now w :
  validateStatus (status r) = true ->
  header_missing (headers r !! "ubi-sessionid") = true ->
  (RequestLogin appId (Answered r) now w).1
  = Abrupt (Error "Missing Ubi-SessionId header in login response.").
Proof.
  intros Hv Hh. unfold RequestLogin. run. rewrite (settle_accepts _ Hv).
  simpl. rewrite Hh. reflexivity.
Qed.

Lemma RequestLogin_fails appId reply now w :
  login_fails reply = true -> exists e, (RequestLogin appId reply now w).1 = Abrupt e.
Proof.
  unfold login_fails, RequestLogin. unfold try_catch, mbind, M_bind, axios.
  destruct (settle reply) as [e|r]; simpl.
  - intros _.
    destruct (rethrow_throws "Too many requests. Rate limit hit." e (sending appId w))
      as [e' ->].
    eauto.
  - intros ->. simpl. eauto.
Qed.

(** A response that is 2xx and has the session header, with the body
    [null]: reading [response.data.expiration] throws. *)
Lemma RequestLogin_null appId reply now w :
  login_fails reply = false -> null_body reply = true ->
  (RequestLogin appId reply now w).1 = Abrupt TypeError.
Proof.
  intros Hf. destruct (login_fails_cases _ Hf) as (r & -> & Hv & Hh).
  unfold null_body, RequestLogin. run. rewrite (settle_accepts _ Hv). simpl.
  rewrite Hh. destruct (body r); [reflexivity|discriminate].
Qed.

(** The credential a successful login returns. *)
Lemma RequestLogin_ok appId reply now w :
  grants reply = true ->
  exists r, reply = Answered r
    /\ (RequestLogin appId reply now w).1
       = Normal (Some (<["expiration" := js_or (data r !! "expiration")
                                               (JStr (toISOString (now + 30 * 60 * 1000)))]>
                         (<["sessionId" := JStr (default "" (headers r !! "ubi-sessionid"))]>
                            (data r)))).
Proof.
  unfold grants. intros [Hf Hn]%andb_true_iff.
  apply negb_true_iff in Hf, Hn.
  destruct (login_fails_cases _ Hf) as (r & -> & Hv & Hh).
  exists r. split; [reflexivity|]. revert Hn.
  unfold null_body, RequestLogin. run. rewrite (settle_accepts _ Hv). simpl.
  rewrite Hh. destruct (body r); [discriminate|reflexivity].
Qed.

(** On every other answer the login throws. *)
Lemma RequestLogin_throws appId reply now w :
  grants reply = false -> exists e, (RequestLogin appId reply now w).1 = Abrupt e.
Proof.
  unfold grants. destruct (login_fails reply) eqn:Hf; simpl.
  - intros _. now apply RequestLogin_fails.
  - intros Hn%negb_false_iff. rewrite (RequestLogin_null _ _ _ _ Hf Hn). eauto.
Qed.

(** A login either throws or returns a credential: it never returns
    [undefined]. *)
Lemma RequestLogin_result appId reply now w :
  (RequestLogin appId reply now w).1 <> Normal None.
Proof.
  destruct (grants reply) eqn:Hg.
  - destruct (RequestLogin_ok appId reply now w Hg) as (r & _ & ->). discriminate.
  - destruct (RequestLogin_throws appId reply now w Hg) as [e ->]. discriminate.
Qed.

Lemma Login_blocks env w :
  Login env w
  = try_catch (refresh V2 env;; refresh V3 env)
              (fun error => console_error (Some "Login failed:") error) w.
Proof.
  unfold Login, refresh, try_catch, mbind, M_bind, app_of.
  destruct (loadToken V2 (load_time env V2) w) as [[[t|]|e] w1]; reflexivity.
Qed.

Lemma refresh_run version env w :
  refresh version env w
  = match peek (disk w !! token_path version) (load_time env version) with
    | Some _ => (Normal tt, w)
    | None =>
        match (RequestLogin (app_of version) (reply env (app_of version))
                            (login_time env (app_of version)) w).1 with
        | Normal (Some token) =>
            fs_writeFile (token_path version) (JSON_stringify token)
                         (sending (app_of version) w)
        | Normal None => (Normal tt, sending (app_of version) w)
        | Abrupt e => (Abrupt e, sending (app_of version) w)
        end
    end.
Proof.
  unfold refresh. unfold mbind at 1. unfold M_bind. rewrite loadToken_run.
  destruct (peek _ _); [reflexivity|].
  unfold mbind, M_bind.
  pose proof (RequestLogin_world (app_of version) (reply env (app_of version))
                (login_time env (app_of version)) w) as Hw.
  destruct (RequestLogin _ _ _ w) as [c w1]. simpl in *. subst w1.
  destruct c as [[token|]|e]; reflexivity.
Qed.

End CachedFacts.

(** ** The error taxonomy *)

Lemma taxonomy_not_protocol e s :
  surfaces_as e (taxonomy s) = true -> surfaces_as e ProtocolViolation = false.
Proof.
  unfold taxonomy.
  destruct (s =? 401); [|destruct (s =? 409); [|destruct (s =? 429)]];
    destruct e as [m|m|[r|]| | |]; simpl; try discriminate; try reflexivity;
    intros Hm; apply String.eqb_eq in Hm; subst m; reflexivity.
Qed.

(** C3. A response whose status is not 2xx makes the login of every manager
    throw, and what it throws is decided by the status: 401 is reported as
    Unauthorized, 409 as ChallengeRequired, 429 as RateLimited, and any other
    status [s] as Unknown [s] (an [Error] whose message ends in [s], or the
    axios error that holds the response). *)
Theorem login_status_taxonomy `{Runtime} (r : Response) :
  validateStatus (status r) = false ->
  (forall appId s, exists e,
      (UbiAuth.requestLogin appId (Answered r) s).1 = Abrupt e
      /\ surfaces_as e (taxonomy (status r)) = true)
  /\ (forall appId w, exists e,
      (Legacy.RequestLogin appId (Answered r) w).1 = Abrupt e
      /\ surfaces_as e (taxonomy (status r)) = true)
  /\ (forall appId now w, exists e,
      (Cached.RequestLogin appId (Answered r) now w).1 = Abrupt e
      /\ surfaces_as e (taxonomy (status r)) = true)
  /\ taxonomy 401 = Unauthorized
  /\ taxonomy 409 = ChallengeRequired
  /\ taxonomy 429 = RateLimited
  /\ (status r <> 401 -> status r <> 409 -> status r <> 429 ->
      taxonomy (status r) = Unknown (status r)).
Proof.
  intros Hv. repeat split.
  - intros appId s. now apply UbiAuthFacts.requestLogin_status.
  - intros appId w. now apply Legacy_RequestLogin_status.
  - intros appId now w. now apply RequestLogin_status.
  - intros H1 H2 H3. unfold taxonomy.
    apply Z.eqb_neq in H1, H2, H3. now rewrite H1, H2, H3.
Qed.

(** What is thrown, manager by manager, for 401, 409, 429 and 500. *)
Lemma thrown_for_status :
  (UbiAuth.requestLogin "app" (Answered (Scenario.refused 401)) Scenario.fresh_manager).1
  = Abrupt (Error "Unauthorized: Incorrect email or password.")
  /\ (UbiAuth.requestLogin "app" (Answered (Scenario.refused 409)) Scenario.fresh_manager).1
     = Abrupt (Error "Conflict: Captcha or other challenge required.")
  /\ (UbiAuth.requestLogin "app" (Answered (Scenario.refused 429)) Scenario.fresh_manager).1
     = Abrupt (Error "Too many requests: Rate limit exceeded.")
  /\ (UbiAuth.requestLogin "app" (Answered (Scenario.refused 500)) Scenario.fresh_manager).1
     = Abrupt (Error "Login failed with status 500")
  /\ (Legacy.RequestLogin UbiAppId.v2 (Answered (Scenario.refused 401)) Scenario.idle).1
     = Abrupt (Literal "Account does not exist.")
  /\ (Legacy.RequestLogin UbiAppId.v2 (Answered (Scenario.refused 409)) Scenario.idle).1
     = Abrupt (Literal "Captcha needed.")
  /\ (Legacy.RequestLogin UbiAppId.v2 (Answered (Scenario.refused 429)) Scenario.idle).1
     = Abrupt (Literal "Too many requests.")
  /\ (Legacy.RequestLogin UbiAppId.v2 (Answered (Scenario.refused 500)) Scenario.idle).1
     = Abrupt (AxiosError (Some (Scenario.refused 500)))
  /\ (Cached.RequestLogin UbiAppId.v2 (Answered (Scenario.refused 429))
                          Scenario.t0 Scenario.idle).1
     = Abrupt (Literal "Too many requests. Rate limit hit.")
  /\ (Cached.RequestLogin UbiAppId.v2 (Answered (Scenario.refused 500))
                          Scenario.t0 Scenario.idle).1
     = Abrupt (AxiosError (Some (Scenario.refused 500))).
Proof. repeat split. Qed.

(** A 500 with an empty body: [ubi-auth.ts] reports Unknown 500. *)
Lemma login_status_taxonomy_500 :
  validateStatus 500 = false
  /\ taxonomy 500 = Unknown 500
  /\ exists e,
       (UbiAuth.requestLogin "app" (Answered (Scenario.refused 500))
                             Scenario.fresh_manager).1 = Abrupt e
       /\ surfaces_as e (taxonomy 500) = true.
Proof.
  split; [reflexivity|]. split; [reflexivity|].
  apply (proj1 (login_status_taxonomy (Scenario.refused 500) eq_refl)).
Defined.

(** C4, as the specification states it, fails: a 401 without the session
    header is reported as Unauthorized, not as a protocol violation. *)
Lemma unauthorized_without_header :
  header_missing (headers (Scenario.refused 401) !! "ubi-sessionid") = true
  /\ (UbiAuth.requestLogin "app" (Answered (Scenario.refused 401))
                           Scenario.fresh_manager).1
     = Abrupt (Error "Unauthorized: Incorrect email or password.")
  /\ surfaces_as (Error "Unauthorized: Incorrect email or password.") ProtocolViolation
     = false
  /\ (Cached.RequestLogin UbiAppId.v2 (Answered (Scenario.refused 401))
                          Scenario.t0 Scenario.idle).1
     = Abrupt (Literal "Account does not exist.").
Proof. repeat split. Qed.

(** C4, amended. A response that lacks the session header (or has it empty)
    makes the login throw the protocol violation when its status is 2xx;
    when its status is not 2xx the status alone decides what is thrown, and
    that is never the protocol violation. *)
Theorem missing_session_header `{Runtime} (r : Response) :
  header_missing (headers r !! "ubi-sessionid") = true ->
  (validateStatus (status r) = true ->
     (forall appId s,
        (UbiAuth.requestLogin appId (Answered r) s).1
        = Abrupt (Error "Missing Ubi-SessionId header in login response."))
     /\ (forall appId w,
        (Legacy.RequestLogin appId (Answered r) w).1
        = Abrupt (Error "Missing Ubi-SessionId header in login response."))
     /\ (forall appId now w,
        (Cached.RequestLogin appId (Answered r) now w).1
        = Abrupt (Error "Missing Ubi-SessionId header in login response."))
     /\ surfaces_as (Error "Missing Ubi-SessionId header in login response.")
                    ProtocolViolation = true)
  /\ (validateStatus (status r) = false ->
     (forall appId s, exists e,
        (UbiAuth.requestLogin appId (Answered r) s).1 = Abrupt e
        /\ surfaces_as e (taxonomy (status r)) = true
        /\ surfaces_as e ProtocolViolation = false)
     /\ (forall appId w, exists e,
        (Legacy.RequestLogin appId (Answered r) w).1 = Abrupt e
        /\ surfaces_as e (taxonomy (status r)) = true
        /\ surfaces_as e ProtocolViolation = false)
     /\ (forall appId now w, exists e,
        (Cached.RequestLogin appId (Answered r) now w).1 = Abrupt e
        /\ surfaces_as e (taxonomy (status r)) = true
        /\ surfaces_as e ProtocolViolation = false)).
Proof.
  intros Hh. split; intros Hv.
  - split; [|split; [|split]].
    + intros appId s. now apply UbiAuthFacts.requestLogin_no_header.
    + intros appId w. now apply Legacy_RequestLogin_no_header.
    + intros appId now w. now apply RequestLogin_no_header.
    + reflexivity.
  - split; [|split].
    + intros appId s.
      destruct (UbiAuthFacts.requestLogin_status appId r s Hv) as (e & He & Hk).
      exists e. eauto using taxonomy_not_protocol.
    + intros appId w.
      destruct (Legacy_RequestLogin_status appId r w Hv) as (e & He & Hk).
      exists e. eauto using taxonomy_not_protocol.
    + intros appId now w.
      destruct (RequestLogin_status appId r now w Hv) as (e & He & Hk).
      exists e. eauto using taxonomy_not_protocol.
Qed.

(** A 200 without the session header is the protocol violation. *)
Lemma missing_session_header_200 :
  header_missing (headers (Scenario.refused 200) !! "ubi-sessionid") = true
  /\ validateStatus (status (Scenario.refused 200)) = true
  /\ (UbiAuth.requestLogin "app" (Answered (Scenario.refused 200))
                           Scenario.fresh_manager).1
     = Abrupt (Error "Missing Ubi-SessionId header in login response.").
Proof.
  split; [reflexivity|]. split; [reflexivity|].
  apply (proj1 (proj1 (missing_session_header (Scenario.refused 200) eq_refl) eq_refl)).
Defined.

(** ** [Login] as two blocks *)

Section LoginFacts.
Context `{Runtime}.
Import Cached.

Lemma Login_world env w :
  Login env w
  = match refresh V2 env w with
    | (Normal _, w1) =>
        match refresh V3 env w1 with
        | (Normal _, w2) => (Normal tt, w2)
        | (Abrupt e, w2) => (Normal tt, printing (Some "Login failed:") e w2)
        end
    | (Abrupt e, w1) => (Normal tt, printing (Some "Login failed:") e w1)
    end.
Proof.
  rewrite Login_blocks. unfold try_catch, mbind, M_bind, console_error, modify.
  destruct (refresh V2 env w) as [[[]|e] w1]; [|reflexivity].
  destruct (refresh V3 env w1) as [[[]|e] w2]; reflexivity.
Qed.

Lemma Login_completes env w : (Login env w).1 = Normal tt.
Proof.
  rewrite Login_world.
  destruct (refresh V2 env w) as [[[]|e] w1]; [|reflexivity].
  destruct (refresh V3 env w1) as [[[]|e] w2]; reflexivity.
Qed.

Lemma refresh_cached version env w token :
  peek (disk w !! token_path version) (load_time env version) = Some token ->
  refresh version env w = (Normal tt, w).
Proof. intros Hp. rewrite refresh_run, Hp. reflexivity. Qed.

Lemma refresh_throws version env w e :
  peek (disk w !! token_path version) (load_time env version) = None ->
  (RequestLogin (app_of version) (reply env (app_of version))
                (login_time env (app_of version)) w).1 = Abrupt e ->
  refresh version env w = (Abrupt e, sending (app_of version) w).
Proof. intros Hp He. rewrite refresh_run, Hp, He. reflexivity. Qed.

(** A block writes the file of its own version only. *)
Lemma refresh_disk_other version env w path :
  path <> token_path version ->
  disk (refresh version env w).2 !! path = disk w !! path.
Proof.
  intros Hne. rewrite refresh_run.
  destruct (peek _ _); [reflexivity|].
  destruct (RequestLogin _ _ _ w).1 as [[token|]|e]; try reflexivity.
  unfold fs_writeFile. simpl. destruct (writable w); [|reflexivity].
  simpl. now rewrite lookup_insert_ne.
Qed.

(** A block whose login would fail writes nothing. *)
Lemma refresh_disk_fails version env w :
  login_fails (reply env (app_of version)) = true ->
  disk (refresh version env w).2 = disk w.
Proof.
  intros Hf. rewrite refresh_run.
  destruct (peek _ _); [reflexivity|].
  destruct (RequestLogin_fails (app_of version) (reply env (app_of version))
              (login_time env (app_of version)) w Hf) as [e ->].
  reflexivity.
Qed.

Lemma Login_disk env w :
  disk (Login env w).2 = disk (refresh V2 env w).2
  \/ disk (Login env w).2 = disk (refresh V3 env (refresh V2 env w).2).2.
Proof.
  rewrite Login_world.
  destruct (refresh V2 env w) as [[[]|e] w1]; [|now left].
  right. simpl. destruct (refresh V3 env w1) as [[[]|e] w2]; reflexivity.
Qed.

Lemma Login_keeps_file env w version :
  login_fails (reply env (app_of version)) = true ->
  disk (Login env w).2 !! token_path version = disk w !! token_path version.
Proof.
  intros Hf. destruct (Login_disk env w) as [-> | ->].
  - destruct version.
    + now rewrite refresh_disk_fails.
    + apply refresh_disk_other. discriminate.
  - destruct version.
    + rewrite refresh_disk_other by discriminate. now rewrite refresh_disk_fails.
    + rewrite refresh_disk_fails by assumption. apply refresh_disk_other. discriminate.
Qed.

Lemma Login_first_failure env w e :
  peek (disk w !! token_path V2) (load_time env V2) = None ->
  (RequestLogin UbiAppId.v2 (reply env UbiAppId.v2) (login_time env UbiAppId.v2) w).1
  = Abrupt e ->
  Login env w = (Normal tt, printing (Some "Login failed:") e (sending UbiAppId.v2 w)).
Proof.
  intros Hp He. rewrite Login_world, (refresh_throws V2 env w e Hp He). reflexivity.
Qed.

End LoginFacts.

Lemma Legacy_Login_completes save env w : (Legacy.Login save env w).1 = Normal tt.
Proof.
  unfold Legacy.Login, try_catch, console_error, modify.
  match goal with |- (match ?b with _ => _ end).1 = _ => destruct b as [[[]|e] w'] end;
    reflexivity.
Qed.

Lemma Legacy_Login_first_failure save env w e :
  (Legacy.RequestLogin UbiAppId.v2 (reply env UbiAppId.v2) w).1 = Abrupt e ->
  Legacy.Login save env w = (Normal tt, printing None e (sending UbiAppId.v2 w)).
Proof.
  intros He. unfold Legacy.Login, try_catch, console_error, modify.
  unfold mbind at 1. unfold M_bind at 1.
  pose proof (Legacy_RequestLogin_world UbiAppId.v2 (reply env UbiAppId.v2) w) as Hw.
  destruct (Legacy.RequestLogin UbiAppId.v2 (reply env UbiAppId.v2) w) as [c w1].
  simpl in *. subst. reflexivity.
Qed.

Lemma Legacy_RequestLogin_fails appId reply w :
  login_fails reply = true -> exists e, (Legacy.RequestLogin appId reply w).1 = Abrupt e.
Proof.
  unfold login_fails, Legacy.RequestLogin. unfold try_catch, mbind, M_bind, axios.
  destruct (settle reply) as [e|r]; simpl.
  - intros _.
    destruct (rethrow_throws "Too many requests." e (sending appId w)) as [e' ->].
    eauto.
  - intros ->. simpl. eauto.
Qed.

(** ** Failures and the cache *)

(** C2. A login that fails (a response that is not 2xx, a missing session
    header, or no response) updates nothing: [getToken] leaves the fields of
    the manager as they were, and [Login] leaves the token file of that
    version as it was; the block of the failing login writes no file at all,
    so when the first login of [Login] fails the whole directory is as
    before. *)
Theorem failed_login_keeps_cache `{Runtime} :
  (forall appId now reply now' s,
     login_fails reply = true ->
     UbiAuth.this (UbiAuth.getToken appId now reply now' s).2 = UbiAuth.this s)
  /\ (forall env w version,
     login_fails (reply env (app_of version)) = true ->
     disk (Cached.Login env w).2 !! token_path version = disk w !! token_path version)
  /\ (forall env w version,
     login_fails (reply env (app_of version)) = true ->
     disk (Cached.refresh version env w).2 = disk w)
  /\ (forall env w,
     (Cached.loadToken V2 (load_time env V2) w).1 = Normal None ->
     login_fails (reply env UbiAppId.v2) = true ->
     disk (Cached.Login env w).2 = disk w).
Proof.
  split; [|split; [|split]].
  - intros appId now reply now' s Hf.
    destruct (UbiAuth.shouldReauthenticate (UbiAuth.this s) now) eqn:Hc.
    + destruct (UbiAuthFacts.requestLogin_fails appId reply s Hf) as [e He].
      rewrite (UbiAuthFacts.getToken_throws appId now reply now' s e Hc He).
      reflexivity.
    + now rewrite UbiAuthFacts.getToken_cached.
  - intros env w version Hf. now apply Login_keeps_file.
  - intros env w version Hf. now apply refresh_disk_fails.
  - intros env w Hl Hf. rewrite loadToken_run in Hl. simpl in Hl.
    injection Hl as Hl.
    destruct (RequestLogin_fails UbiAppId.v2 (reply env UbiAppId.v2)
                (login_time env UbiAppId.v2) w Hf) as [e He].
    rewrite (Login_first_failure env w e Hl He). reflexivity.
Qed.

(** An empty directory and a server that answers 429: [Login] leaves the
    directory empty. *)
Lemma failed_login_keeps_cache_429 :
  login_fails (Answered (Scenario.refused 429)) = true
  /\ disk (Cached.Login (Scenario.always (Answered (Scenario.refused 429)) Scenario.t0)
                        Scenario.idle).2
     = disk Scenario.idle.
Proof.
  split; [reflexivity|].
  apply (proj2 (proj2 (proj2 failed_login_keeps_cache))); reflexivity.
Defined.

(** C6, as the specification states it, fails for [Login]: the failure of
    the login is printed and [Login] completes normally; its caller is not
    handed any failure. *)
Lemma Login_swallows_failure :
  login_fails (Answered (Scenario.refused 401)) = true
  /\ Cached.Login (Scenario.always (Answered (Scenario.refused 401)) Scenario.t0)
                  Scenario.idle
     = (Normal tt,
        {| disk := ∅; writable := true; sent := [UbiAppId.v2];
           errors := [(Some "Login failed:", Literal "Account does not exist.")] |}).
Proof. split; reflexivity. Qed.

(** C6, amended. In [ubi-auth.ts] a login that fails is thrown to the caller
    of [getToken] as it is, after one request and no second one.  [Login] of
    the file managers never fails: what the login throws is caught, printed
    with [console.error], and the rest of [Login] is skipped; again one
    request, no retry. *)
Theorem login_failure_outcome `{Runtime} :
  (forall appId now reply now' s,
     UbiAuth.shouldReauthenticate (UbiAuth.this s) now = true ->
     login_fails reply = true ->
     exists e,
       (UbiAuth.requestLogin appId reply s).1 = Abrupt e
       /\ UbiAuth.getToken appId now reply now' s = (Abrupt e, UbiAuth.sending appId s))
  /\ (forall env w, (Cached.Login env w).1 = Normal tt)
  /\ (forall save env w, (Legacy.Login save env w).1 = Normal tt)
  /\ (forall env w,
     (Cached.loadToken V2 (load_time env V2) w).1 = Normal None ->
     login_fails (reply env UbiAppId.v2) = true ->
     exists e,
       (Cached.RequestLogin UbiAppId.v2 (reply env UbiAppId.v2)
                            (login_time env UbiAppId.v2) w).1 = Abrupt e
       /\ Cached.Login env w
          = (Normal tt, printing (Some "Login failed:") e (sending UbiAppId.v2 w)))
  /\ (forall save env w,
     login_fails (reply env UbiAppId.v2) = true ->
     exists e,
       (Legacy.RequestLogin UbiAppId.v2 (reply env UbiAppId.v2) w).1 = Abrupt e
       /\ Legacy.Login save env w
          = (Normal tt, printing None e (sending UbiAppId.v2 w))).
Proof.
  split; [|split; [|split; [|split]]].
  - intros appId now reply now' s Hc Hf.
    destruct (UbiAuthFacts.requestLogin_fails appId reply s Hf) as [e He].
    exists e. split; [assumption|]. now apply UbiAuthFacts.getToken_throws.
  - intros env w. apply Login_completes.
  - intros save env w. apply Legacy_Login_completes.
  - intros env w Hl Hf. rewrite loadToken_run in Hl. simpl in Hl. injection Hl as Hl.
    destruct (RequestLogin_fails UbiAppId.v2 (reply env UbiAppId.v2)
                (login_time env UbiAppId.v2) w Hf) as [e He].
    exists e. split; [assumption|]. now apply Login_first_failure.
  - intros save env w Hf.
    destruct (Legacy_RequestLogin_fails UbiAppId.v2 (reply env UbiAppId.v2) w Hf)
      as [e He].
    exists e. split; [assumption|]. now apply Legacy_Login_first_failure.
Qed.

(** A fresh manager and a 401: [getToken] throws what the login threw, after
    one request. *)
Lemma login_failure_outcome_401 :
  UbiAuth.shouldReauthenticate (UbiAuth.this Scenario.fresh_manager) Scenario.t0 = true
  /\ login_fails (Answered (Scenario.refused 401)) = true
  /\ exists e,
       (UbiAuth.requestLogin "app" (Answered (Scenario.refused 401))
                             Scenario.fresh_manager).1 = Abrupt e
       /\ UbiAuth.getToken "app" Scenario.t0 (Answered (Scenario.refused 401))
                           (Scenario.t0 + 500) Scenario.fresh_manager
          = (Abrupt e, UbiAuth.sending "app" Scenario.fresh_manager).
Proof.
  split; [reflexivity|]. split; [reflexivity|].
  apply (proj1 login_failure_outcome); reflexivity.
Defined.

(** ** Reusing the cached credential *)

(** C5, as the specification states it, fails for [Login].  The token
    files hold a credential without an expiration obtained half a second
    after [t0]; a second after [t0] the rule of the specification calls it
    valid.  Two runs of [Login] in a row at that clock, the server answering
    429: each sends a request for the first application.  In the manager
    without the default the same happens when the server grants the
    session: every run logs in again for both applications. *)
Lemma Login_twice_sends_again :
  spec_valid (Scenario.t0 + 1000)
    (file_credential (disk Scenario.after_plain_login !! token_path V2)
                     (Scenario.t0 + 500))
  = true
  /\ spec_valid (Scenario.t0 + 1000)
       (file_credential (disk Scenario.after_plain_login !! token_path V3)
                        (Scenario.t0 + 500))
     = true
  /\ sent Scenario.after_plain_login = [UbiAppId.v2; UbiAppId.v3]
  /\ sent (Cached.Login
             (Scenario.always (Answered (Scenario.refused 429)) (Scenario.t0 + 1000))
             Scenario.after_plain_login).2
     = [UbiAppId.v2; UbiAppId.v3; UbiAppId.v2]
  /\ disk (Cached.Login
             (Scenario.always (Answered (Scenario.refused 429)) (Scenario.t0 + 1000))
             Scenario.after_plain_login).2
     = disk Scenario.after_plain_login
  /\ sent (Cached.Login
             (Scenario.always (Answered (Scenario.refused 429)) (Scenario.t0 + 1000))
             (Cached.Login
                (Scenario.always (Answered (Scenario.refused 429)) (Scenario.t0 + 1000))
                Scenario.after_plain_login).2).2
     = [UbiAppId.v2; UbiAppId.v3; UbiAppId.v2; UbiAppId.v2]
  /\ sent (CachedPlain.Login
             (Scenario.always (Answered (Scenario.session "T" "S" ∅)) (Scenario.t0 + 1000))
             (CachedPlain.Login
                (Scenario.always (Answered (Scenario.session "T" "S" ∅))
                                 (Scenario.t0 + 1000))
                Scenario.after_plain_login).2).2
     = [UbiAppId.v2; UbiAppId.v3; UbiAppId.v2; UbiAppId.v3; UbiAppId.v2; UbiAppId.v3].
Proof. repeat (split; [vm_compute; reflexivity|]). vm_compute. reflexivity. Qed.

Lemma peek_Some `{Runtime} file now token :
  peek file now = Some token <->
  exists raw e t,
    file = Some raw /\ JSON_parse raw = Some (JObject token)
    /\ token !! "expiration" = Some e /\ truthy e = true
    /\ Date_getTime e = Some t /\ now + 5 * 60 * 1000 < t.
Proof.
  unfold peek, fresh. split.
  - destruct file as [raw|]; [|discriminate].
    destruct (JSON_parse raw) as [[v|o]|] eqn:Hj; try discriminate.
    destruct (o !! "expiration") as [e|] eqn:He; [|discriminate].
    destruct (truthy e) eqn:Ht; [|discriminate]. simpl.
    destruct (Date_getTime e) as [t|] eqn:Hd; [|discriminate]. simpl.
    destruct (now + 5 * 60 * 1000 <? t) eqn:Hlt; [|discriminate].
    intros [= <-]. exists raw, e, t. repeat split; try assumption.
    now apply Z.ltb_lt.
  - intros (raw & e & t & -> & -> & -> & -> & Hd & Hlt). rewrite Hd. simpl.
    apply Z.ltb_lt in Hlt. now rewrite Hlt.
Qed.

(** C5, amended. Each cache reuses what its own rule holds valid.  In
    [ubi-auth.ts], with a credential that [shouldReauthenticate] holds valid
    at the clock each of two calls of [getToken] reads (as it is when no
    time has passed between them), both calls return the cached token and
    session identifier and leave the state, with its list of requests sent,
    as it was: no login is issued by either.  For [Login] of the file
    managers the same holds of token files that each parse to an object
    whose member [expiration] is set and lies more than five minutes after
    the clock of both runs: two runs in a row send nothing, print nothing
    and change nothing.  A credential without an expiration is not among
    them. *)
Theorem getToken_twice `{Runtime} :
  (forall appId now1 reply1 now1' now2 reply2 now2' s,
     UbiAuth.shouldReauthenticate (UbiAuth.this s) now1 = false ->
     UbiAuth.shouldReauthenticate (UbiAuth.this s) now2 = false ->
     UbiAuth.getToken appId now1 reply1 now1' s
     = (Normal (UbiAuth.token (UbiAuth.this s), UbiAuth.sessionId (UbiAuth.this s)), s)
     /\ UbiAuth.getToken appId now2 reply2 now2'
                         (UbiAuth.getToken appId now1 reply1 now1' s).2
        = (Normal (UbiAuth.token (UbiAuth.this s), UbiAuth.sessionId (UbiAuth.this s)), s))
  /\ (forall env1 env2 w,
     (forall version, exists raw token e t,
        disk w !! token_path version = Some raw
        /\ JSON_parse raw = Some (JObject token)
        /\ token !! "expiration" = Some e
        /\ truthy e = true
        /\ Date_getTime e = Some t
        /\ load_time env1 version + 5 * 60 * 1000 < t
        /\ load_time env2 version + 5 * 60 * 1000 < t) ->
     Cached.Login env1 w = (Normal tt, w)
     /\ Cached.Login env2 (Cached.Login env1 w).2 = (Normal tt, w)
     /\ CachedPlain.Login env1 w = (Normal tt, w)
     /\ CachedPlain.Login env2 (CachedPlain.Login env1 w).2 = (Normal tt, w)).
Proof.
  split.
  - intros appId now1 reply1 now1' now2 reply2 now2' s H1 H2.
    rewrite (UbiAuthFacts.getToken_cached appId now1 reply1 now1' s H1). simpl.
    split; [reflexivity|]. now apply UbiAuthFacts.getToken_cached.
  - intros env1 env2 w Hfiles.
    assert (Hpeek : forall version,
               (exists token, peek (disk w !! token_path version)
                                   (load_time env1 version) = Some token)
               /\ (exists token, peek (disk w !! token_path version)
                                      (load_time env2 version) = Some token)).
    { intros version.
      destruct (Hfiles version) as (raw & token & e & t & Hd & Hj & He & Ht & Hg & H1 & H2).
      split; exists token; apply peek_Some; exists raw, e, t; auto 10. }
    assert (Hrun : forall env,
               (forall version, exists token,
                  peek (disk w !! token_path version) (load_time env version)
                  = Some token) ->
               Cached.Login env w = (Normal tt, w)).
    { intros env Hv. rewrite Login_world.
      destruct (Hv V2) as [t2 Ht2]. destruct (Hv V3) as [t3 Ht3].
      rewrite (refresh_cached V2 env w t2 Ht2), (refresh_cached V3 env w t3 Ht3).
      reflexivity. }
    assert (Hplain : forall env,
               (forall version, exists token,
                  peek (disk w !! token_path version) (load_time env version)
                  = Some token) ->
               CachedPlain.Login env w = (Normal tt, w)).
    { intros env Hv.
      destruct (Hv V2) as [t2 Ht2]. destruct (Hv V3) as [t3 Ht3].
      pose proof (loadToken_run V2 (load_time env V2) w) as H2.
      pose proof (loadToken_run V3 (load_time env V3) w) as H3.
      simpl in Ht2, Ht3. simpl in H2, H3. rewrite Ht2 in H2. rewrite Ht3 in H3.
      unfold CachedPlain.Login, try_catch, mbind, M_bind.
      change (CachedPlain.loadToken V2 (load_time env V2) w)
        with (Cached.loadToken V2 (load_time env V2) w).
      rewrite H2. simpl.
      change (CachedPlain.loadToken V3 (load_time env V3) w)
        with (Cached.loadToken V3 (load_time env V3) w).
      rewrite H3. reflexivity. }
    assert (H1 : forall version, exists token,
               peek (disk w !! token_path version) (load_time env1 version)
               = Some token) by (intros version; apply Hpeek).
    assert (H2 : forall version, exists token,
               peek (disk w !! token_path version) (load_time env2 version)
               = Some token) by (intros version; apply Hpeek).
    rewrite (Hrun env1 H1), (Hplain env1 H1). simpl.
    repeat split; auto.
Qed.

(** Half a second after a login, two calls in a row with the network down:
    both return the cached pair.  Token files that expire an hour after
    [t0], two runs of [Login] in a row with the network down: nothing is
    sent, printed or written. *)
Lemma getToken_twice_logged_in :
  (UbiAuth.shouldReauthenticate (UbiAuth.this (Scenario.logged_in "app" "T" "S"))
                                (Scenario.t0 + 1000) = false
   /\ UbiAuth.getToken "app" (Scenario.t0 + 1000) (Unreachable "ECONNRESET")
                       (Scenario.t0 + 1500)
        (UbiAuth.getToken "app" (Scenario.t0 + 1000) (Unreachable "ECONNRESET")
                          (Scenario.t0 + 1500) (Scenario.logged_in "app" "T" "S")).2
      = (Normal (Some (JStr "T"), Some (JStr "S")), Scenario.logged_in "app" "T" "S"))
  /\ Cached.Login (Scenario.always (Unreachable "ECONNRESET") (Scenario.t0 + 1000))
        (Cached.Login (Scenario.always (Unreachable "ECONNRESET") Scenario.t0)
                      Scenario.valid_both).2
     = (Normal tt, Scenario.valid_both).
Proof.
  split.
  - split; [reflexivity|].
    apply (proj1 getToken_twice "app" (Scenario.t0 + 1000) (Unreachable "ECONNRESET")
             (Scenario.t0 + 1500) (Scenario.t0 + 1000) (Unreachable "ECONNRESET")
             (Scenario.t0 + 1500) (Scenario.logged_in "app" "T" "S") eq_refl eq_refl).
  - assert (Hfiles : forall version, exists raw token e t,
               disk Scenario.valid_both !! token_path version = Some raw
               /\ JSON_parse raw = Some (JObject token)
               /\ token !! "expiration" = Some e
               /\ truthy e = true
               /\ Date_getTime e = Some t
               /\ load_time (Scenario.always (Unreachable "ECONNRESET") Scenario.t0)
                            version + 5 * 60 * 1000 < t
               /\ load_time (Scenario.always (Unreachable "ECONNRESET")
                                             (Scenario.t0 + 1000))
                            version + 5 * 60 * 1000 < t).
    { intros version.
      exists (JSON_stringify
                (<["expiration" := JStr (toISOString (Scenario.t0 + 3600000))]>
                   Scenario.plain_credential)),
             (<["expiration" := JStr (toISOString (Scenario.t0 + 3600000))]>
                Scenario.plain_credential),
             (JStr (toISOString (Scenario.t0 + 3600000))),
             (Scenario.t0 + 3600000).
      destruct version;
        repeat (split; [vm_compute; reflexivity|]); vm_compute; reflexivity. }
    exact (proj1 (proj2 (proj2 getToken_twice
             (Scenario.always (Unreachable "ECONNRESET") Scenario.t0)
             (Scenario.always (Unreachable "ECONNRESET") (Scenario.t0 + 1000))
             Scenario.valid_both Hfiles))).
Defined.

(** ** Saving and loading *)

(** C7, as the specification states it, fails: a credential without an
    expiration is saved, its text parses back to itself, and [loadToken]
    nevertheless answers [null]; so it does for a credential that expires
    four minutes after the load. *)
Lemma save_load_drops_credential :
  (Cached.saveToken V2 Scenario.plain_credential Scenario.idle).1 = Normal tt
  /\ JSON_parse (JSON_stringify Scenario.plain_credential)
     = Some (JObject Scenario.plain_credential)
  /\ (Cached.loadToken V2 Scenario.t0
        (Cached.saveToken V2 Scenario.plain_credential Scenario.idle).2).1
     = Normal None
  /\ (Cached.loadToken V2 Scenario.t0
        (Scenario.stored V2 (Scenario.t0 + 4 * 60 * 1000) Scenario.idle)).1
     = Normal None.
Proof. vm_compute. repeat split. Qed.

(** C7, amended. A credential saved to the file of a version (the
    directory accepts the write, and the text [JSON.stringify] produces
    parses back to the credential) and loaded back at [now] comes back
    entire, so with the same token, session identifier and expiration, when
    it has an expiration that lies more than five minutes after [now];
    otherwise [loadToken] answers [null]. *)
Theorem save_then_load `{Runtime} version token now w :
  writable w = true ->
  JSON_parse (JSON_stringify token) = Some (JObject token) ->
  (Cached.saveToken version token w).1 = Normal tt
  /\ (Cached.loadToken version now (Cached.saveToken version token w).2).1
     = Normal (if fresh token now then Some token else None)
  /\ (fresh token now = true <->
      exists e t, token !! "expiration" = Some e /\ truthy e = true
                  /\ Date_getTime e = Some t /\ now + 5 * 60 * 1000 < t).
Proof.
  intros Hw Hj. rewrite saveToken_run, Hw. simpl. split; [reflexivity|]. split.
  - rewrite loadToken_run. simpl. rewrite lookup_insert_eq. simpl. rewrite Hj.
    reflexivity.
  - unfold fresh. destruct (token !! "expiration") as [e|].
    + rewrite andb_true_iff. unfold js_gt. split.
      * intros [Ht Hg]. destruct (Date_getTime e) as [t|] eqn:Hd; [|discriminate].
        exists e, t. repeat split; try assumption. now apply Z.ltb_lt.
      * intros (e' & t & [= <-] & Ht & -> & Hlt). split; [assumption|].
        now apply Z.ltb_lt.
    + split; [discriminate|]. intros (e & t & [=] & _).
Qed.

(** A credential that expires in thirty minutes comes back as it was saved. *)
Lemma save_then_load_half_hour :
  writable Scenario.idle = true
  /\ JSON_parse
       (JSON_stringify
          (<["expiration" := JStr (toISOString (Scenario.t0 + 30 * 60 * 1000))]>
             Scenario.plain_credential))
     = Some (JObject
               (<["expiration" := JStr (toISOString (Scenario.t0 + 30 * 60 * 1000))]>
                  Scenario.plain_credential))
  /\ (Cached.loadToken V2 Scenario.t0
        (Cached.saveToken V2
           (<["expiration" := JStr (toISOString (Scenario.t0 + 30 * 60 * 1000))]>
              Scenario.plain_credential)
           Scenario.idle).2).1
     = Normal (Some (<["expiration" := JStr "2024-01-01T00:30:00.000Z"]>
                       Scenario.plain_credential)).
Proof.
  assert (Hj : JSON_parse
                 (JSON_stringify
                    (<["expiration" := JStr (toISOString (Scenario.t0 + 30 * 60 * 1000))]>
                       Scenario.plain_credential))
               = Some (JObject
                         (<["expiration" := JStr (toISOString (Scenario.t0 + 30 * 60 * 1000))]>
                            Scenario.plain_credential)))
    by (vm_compute; reflexivity).
  split; [reflexivity|]. split; [exact Hj|].
  destruct (save_then_load V2
              (<["expiration" := JStr (toISOString (Scenario.t0 + 30 * 60 * 1000))]>
                 Scenario.plain_credential)
              Scenario.t0 Scenario.idle eq_refl Hj) as (_ & Hl & _).
  rewrite Hl. vm_compute. reflexivity.
Defined.

(** ** The expiration of a new credential *)

Section ExpirationFacts.
Context `{Runtime}.
Import Cached.

Lemma js_or_truthy (a : option JValue) (b : JValue) :
  truthy_opt a = true -> Some (js_or a b) = a.
Proof. destruct a as [v|]; simpl; [|discriminate]. now intros ->. Qed.

Lemma js_or_falsy (a : option JValue) (b : JValue) :
  truthy_opt a = false -> js_or a b = b.
Proof. destruct a as [v|]; simpl; [|reflexivity]. now intros ->. Qed.

(** The credential of a login that returns: the answer was a response, and
    the member [expiration] is set as [RequestLogin] computes it. *)
Lemma RequestLogin_returns appId reply now w token :
  (RequestLogin appId reply now w).1 = Normal (Some token) ->
  exists r, reply = Answered r
    /\ grants reply = true
    /\ token
       = <["expiration" := js_or (data r !! "expiration")
                                 (JStr (toISOString (now + 30 * 60 * 1000)))]>
           (<["sessionId" := JStr (default "" (headers r !! "ubi-sessionid"))]> (data r)).
Proof.
  intros Hr. destruct (grants reply) eqn:Hg.
  - destruct (RequestLogin_ok appId reply now w Hg) as (r & -> & Hok).
    exists r. split; [reflexivity|]. split; [reflexivity|]. congruence.
  - destruct (RequestLogin_throws appId reply now w Hg) as [e He]. congruence.
Qed.

(** What a block leaves in the file of its version: what was there, or the
    text of a credential that has an expiration. *)
Lemma refresh_disk_own version env w :
  disk (refresh version env w).2 !! token_path version = disk w !! token_path version
  \/ exists token,
       disk (refresh version env w).2 !! token_path version
       = Some (JSON_stringify token)
       /\ is_Some (token !! "expiration").
Proof.
  rewrite refresh_run.
  destruct (peek _ _); [now left|].
  destruct (RequestLogin _ _ _ w).1 as [[token|]|e] eqn:Hr; try (now left).
  unfold fs_writeFile. simpl. destruct (writable w); [|now left].
  right. exists token. simpl. rewrite lookup_insert_eq. split; [reflexivity|].
  destruct (RequestLogin_returns _ _ _ _ _ Hr) as (r & _ & _ & ->).
  rewrite obj_lookup_insert_eq. eauto.
Qed.

Lemma Login_disk_own env w version :
  disk (Login env w).2 !! token_path version = disk w !! token_path version
  \/ exists token,
       disk (Login env w).2 !! token_path version = Some (JSON_stringify token)
       /\ is_Some (token !! "expiration").
Proof.
  destruct (Login_disk env w) as [-> | ->].
  - destruct version.
    + apply refresh_disk_own.
    + left. apply refresh_disk_other. discriminate.
  - destruct version.
    + rewrite refresh_disk_other by discriminate. apply refresh_disk_own.
    + destruct (refresh_disk_own V3 env (refresh V2 env w).2) as [Hd|Hd].
      * left. rewrite Hd. apply refresh_disk_other. discriminate.
      * now right.
Qed.

End ExpirationFacts.

(** C10. In the manager that fills in a default, a login that returns
    returns a credential (never [undefined]) whose member [expiration] is
    set: it is the value the server sent when that value is one (truthy, as
    [||] reads it), and otherwise the ISO string of the clock plus thirty
    minutes.  So every token file [Login] writes holds a credential with an
    expiration. *)
Theorem RequestLogin_sets_expiration `{Runtime} :
  (forall appId reply now w, (Cached.RequestLogin appId reply now w).1 <> Normal None)
  /\ (forall appId reply now w token,
     (Cached.RequestLogin appId reply now w).1 = Normal (Some token) ->
     exists r, reply = Answered r
       /\ is_Some (token !! "expiration")
       /\ (truthy_opt (data r !! "expiration") = true ->
           token !! "expiration" = data r !! "expiration")
       /\ (truthy_opt (data r !! "expiration") = false ->
           token !! "expiration" = Some (JStr (toISOString (now + 30 * 60 * 1000)))))
  /\ (forall env w version,
     disk (Cached.Login env w).2 !! token_path version = disk w !! token_path version
     \/ exists token,
          disk (Cached.Login env w).2 !! token_path version = Some (JSON_stringify token)
          /\ is_Some (token !! "expiration")).
Proof.
  split; [|split].
  - intros appId reply now w. apply RequestLogin_result.
  - intros appId reply now w token Hr.
    destruct (RequestLogin_returns _ _ _ _ _ Hr) as (r & -> & _ & ->).
    exists r. split; [reflexivity|]. rewrite obj_lookup_insert_eq.
    split; [eauto|]. split; intros Ht.
    + now apply js_or_truthy.
    + now rewrite js_or_falsy.
  - intros env w version. apply Login_disk_own.
Qed.

(** The server grants a session and sends no expiration: the credential
    expires thirty minutes after the clock. *)
Lemma RequestLogin_sets_expiration_default :
  (Cached.RequestLogin UbiAppId.v2 (Answered (Scenario.session "T" "S" ∅))
                       Scenario.t0 Scenario.idle).1
  = Normal (Some (<["expiration" := JStr "2024-01-01T00:30:00.000Z"]>
                    (<["sessionId" := JStr "S"]> {["ticket" := JStr "T"]})))
  /\ (<["expiration" := JStr "2024-01-01T00:30:00.000Z"]>
        (<["sessionId" := JStr "S"]> {["ticket" := JStr "T"]}) : Obj)
       !! "expiration"
     = Some (JStr (toISOString (Scenario.t0 + 30 * 60 * 1000))).
Proof.
  assert (Hr : (Cached.RequestLogin UbiAppId.v2 (Answered (Scenario.session "T" "S" ∅))
                                    Scenario.t0 Scenario.idle).1
               = Normal (Some (<["expiration" := JStr "2024-01-01T00:30:00.000Z"]>
                                 (<["sessionId" := JStr "S"]> {["ticket" := JStr "T"]}))))
    by (vm_compute; reflexivity).
  split; [exact Hr|].
  destruct (proj1 (proj2 RequestLogin_sets_expiration) _ _ _ _ _ Hr)
    as (r & Hreply & _ & _ & Hdefault).
  injection Hreply as <-. apply Hdefault. reflexivity.
Defined.

(** ** Counting the requests *)

Ltac case_peek :=
  match goal with
  | |- context [match peek ?file ?now with _ => _ end] => destruct (peek file now)
  end.

Section RequestFacts.
Context `{Runtime}.
Import Cached.

Lemma requests_sending appId appId' w :
  requests appId (sending appId' w)
  = if decide (appId' = appId) then S (requests appId w) else requests appId w.
Proof.
  unfold requests, sending. simpl. rewrite count_occ_app. simpl.
  destruct (UbiAppId_eq_dec appId' appId), (decide (appId' = appId));
    try contradiction; lia.
Qed.

Lemma requests_fs_writeFile appId path text w :
  requests appId (fs_writeFile path text w).2 = requests appId w.
Proof. unfold fs_writeFile. destruct (writable w); reflexivity. Qed.

Lemma requests_refresh appId version env w :
  requests appId (refresh version env w).2
  = match peek (disk w !! token_path version) (load_time env version) with
    | Some _ => requests appId w
    | None => requests appId (sending (app_of version) w)
    end.
Proof.
  rewrite refresh_run. case_peek; [reflexivity|].
  destruct (RequestLogin _ _ _ w).1 as [[token|]|e]; try reflexivity.
  apply requests_fs_writeFile.
Qed.

Lemma requests_Login appId env w :
  requests appId (Login env w).2
  = match (refresh V2 env w).1 with
    | Normal _ => requests appId (refresh V3 env (refresh V2 env w).2).2
    | Abrupt _ => requests appId (refresh V2 env w).2
    end.
Proof.
  rewrite Login_world.
  destruct (refresh V2 env w) as [[[]|e] w1]; [|reflexivity].
  simpl. destruct (refresh V3 env w1) as [[[]|e] w2]; reflexivity.
Qed.

(** The block of the second version reads the file the first block left
    alone. *)
Lemma peek_after_first_block env w now :
  peek (disk (refresh V2 env w).2 !! token_path V3) now
  = peek (disk w !! token_path V3) now.
Proof. now rewrite refresh_disk_other by discriminate. Qed.

(** A request goes out for a version only when its token file is not
    reused. *)
Lemma Login_requests_only_stale env w version :
  requests (app_of version) (Login env w).2 <> requests (app_of version) w ->
  peek (disk w !! token_path version) (load_time env version) = None.
Proof.
  rewrite requests_Login. intros Hne.
  destruct (peek (disk w !! token_path version) (load_time env version)) as [token|] eqn:Hp;
    [exfalso; apply Hne|reflexivity].
  destruct version; simpl app_of.
  - destruct ((refresh V2 env w).1).
    + rewrite requests_refresh.
      assert (H2 : requests UbiAppId.v2 (refresh V2 env w).2 = requests UbiAppId.v2 w)
        by (rewrite requests_refresh, Hp; reflexivity).
      case_peek; [assumption|].
      rewrite requests_sending. simpl. assumption.
    + rewrite requests_refresh, Hp. reflexivity.
  - assert (H3 : requests UbiAppId.v3 (refresh V2 env w).2 = requests UbiAppId.v3 w).
    { rewrite requests_refresh. case_peek; [reflexivity|].
      rewrite requests_sending. simpl. reflexivity. }
    destruct ((refresh V2 env w).1); [|assumption].
    rewrite requests_refresh, peek_after_first_block, Hp. assumption.
Qed.

(** A stale token file costs one request, when the block of its version is
    reached. *)
Lemma Login_requests_stale env w version :
  peek (disk w !! token_path version) (load_time env version) = None ->
  (version = V2 \/ exists done, (refresh V2 env w).1 = Normal done) ->
  requests (app_of version) (Login env w).2 = S (requests (app_of version) w).
Proof.
  intros Hp Hreach. rewrite requests_Login.
  destruct version; simpl app_of.
  - assert (H2 : requests UbiAppId.v2 (refresh V2 env w).2 = S (requests UbiAppId.v2 w)).
    { rewrite requests_refresh, Hp, requests_sending. simpl. reflexivity. }
    destruct ((refresh V2 env w).1); [|assumption].
    rewrite requests_refresh. case_peek; [assumption|].
    rewrite requests_sending. simpl. assumption.
  - destruct Hreach as [[=]|[done Hdone]]. rewrite Hdone.
    rewrite requests_refresh, peek_after_first_block, Hp, requests_sending. simpl.
    f_equal.
    rewrite requests_refresh. case_peek; [reflexivity|].
    rewrite requests_sending. simpl. reflexivity.
Qed.

(** A credential that expired a second ago is not reused. *)
Lemma peek_expired file raw previous e now :
  file = Some raw ->
  JSON_parse raw = Some (JObject previous) ->
  previous !! "expiration" = Some e ->
  Date_getTime e = Some (now - 1000) ->
  peek file now = None.
Proof.
  intros -> Hj He Ht. unfold peek, fresh. rewrite Hj, He, Ht. simpl.
  replace (now + 5 * 60 * 1000 <? now - 1000) with false
    by (symmetry; apply Z.ltb_ge; lia).
  now rewrite andb_false_r.
Qed.

End RequestFacts.

(** ** Refreshing an expired credential *)

(** C8, as the specification states it, fails twice.  With both token files
    expired a second ago and the server answering 429, [Login] sends one
    request for the first application and none for the second.  And when
    the server sends an expiration of its own, it is kept as it is, here one
    that lies an hour before the expiration of the credential it replaces. *)
Lemma expired_credential_not_refreshed :
  cred_expiration <$> file_credential (disk Scenario.expired_both !! token_path V3) 0
  = Some (Some (Scenario.t0 - 1000))
  /\ requests UbiAppId.v3 Scenario.expired_both = 0%nat
  /\ requests UbiAppId.v3
       (Cached.Login (Scenario.always (Answered (Scenario.refused 429)) Scenario.t0)
                     Scenario.expired_both).2 = 0%nat
  /\ (Cached.RequestLogin UbiAppId.v2
        (Answered (Scenario.session "T" "S"
                     {["expiration" := JStr "2023-12-31T23:00:00.000Z"]}))
        (Scenario.t0 + 500) Scenario.expired_both).1
     = Normal (Some (<["expiration" := JStr "2023-12-31T23:00:00.000Z"]>
                       (<["sessionId" := JStr "S"]>
                          (<["ticket" := JStr "T"]>
                             {["expiration" := JStr "2023-12-31T23:00:00.000Z"]}))))
  /\ Date_parse "2023-12-31T23:00:00.000Z" = Some (Scenario.t0 - 3600000).
Proof. repeat (split; [vm_compute; reflexivity|]). vm_compute. reflexivity. Qed.

(** C8, amended. A token file whose credential expired a second before
    the clock of [loadToken] is not reused.  [Login] then sends exactly one
    request for the application of that version, provided the block of that
    version is reached: always for the first version, and for the second
    when the block of the first completes.  The credential a login returns
    has the expiration the server sent, whatever it is, or, when the server
    sent none, the clock plus thirty minutes, which is later than the
    expiration of the credential replaced. *)
Theorem refresh_on_expiry `{Runtime} env w version raw previous e :
  disk w !! token_path version = Some raw ->
  JSON_parse raw = Some (JObject previous) ->
  previous !! "expiration" = Some e ->
  Date_getTime e = Some (load_time env version - 1000) ->
  (Cached.loadToken version (load_time env version) w).1 = Normal None
  /\ (version = V2 \/ (exists done, (Cached.refresh V2 env w).1 = Normal done) ->
      requests (app_of version) (Cached.Login env w).2
      = S (requests (app_of version) w))
  /\ (forall w' token,
      (Cached.RequestLogin (app_of version) (reply env (app_of version))
                           (login_time env (app_of version)) w').1
      = Normal (Some token) ->
      exists r, reply env (app_of version) = Answered r
        /\ token !! "expiration"
           = Some (js_or (data r !! "expiration")
                         (JStr (toISOString (login_time env (app_of version)
                                             + 30 * 60 * 1000))))
        /\ (truthy_opt (data r !! "expiration") = false ->
            load_time env version <= login_time env (app_of version) ->
            Date_parse (toISOString (login_time env (app_of version) + 30 * 60 * 1000))
            = Some (login_time env (app_of version) + 30 * 60 * 1000) ->
            exists t, (token !! "expiration") ≫= Date_getTime = Some t
                      /\ load_time env version - 1000 < t)).
Proof.
  intros Hd Hj He Ht.
  pose proof (peek_expired _ _ _ _ _ Hd Hj He Ht) as Hp.
  split; [|split].
  - rewrite loadToken_run. simpl. now rewrite Hp.
  - intros Hreach. now apply Login_requests_stale.
  - intros w' token Hr.
    destruct (RequestLogin_returns _ _ _ _ _ Hr) as (r & Hreply & _ & ->).
    exists r. split; [assumption|]. rewrite obj_lookup_insert_eq. split; [reflexivity|].
    intros Hnone Hclock Hiso. rewrite (js_or_falsy _ _ Hnone). simpl. rewrite Hiso.
    eexists. split; [reflexivity|]. lia.
Qed.

(** Both token files expired a second ago and the server grants a session
    without an expiration: one request goes out for the second application,
    and the credential it brings expires after the one it replaces. *)
Lemma refresh_on_expiry_second_version :
  requests UbiAppId.v3
    (Cached.Login (Scenario.always (Answered (Scenario.session "T" "S" ∅)) Scenario.t0)
                  Scenario.expired_both).2
  = S (requests UbiAppId.v3 Scenario.expired_both)
  /\ (Cached.RequestLogin UbiAppId.v3 (Answered (Scenario.session "T" "S" ∅))
                          (Scenario.t0 + 500) Scenario.expired_both).1
     = Normal (Some (<["expiration" := JStr "2024-01-01T00:30:00.500Z"]>
                       (<["sessionId" := JStr "S"]> {["ticket" := JStr "T"]})))
  /\ exists t,
       Date_parse "2024-01-01T00:30:00.500Z" = Some t /\ Scenario.t0 - 1000 < t.
Proof.
  assert (Hj : JSON_parse
                 (JSON_stringify (<["expiration" := JStr (toISOString (Scenario.t0 - 1000))]>
                                    Scenario.plain_credential))
               = Some (JObject (<["expiration" := JStr (toISOString (Scenario.t0 - 1000))]>
                                  Scenario.plain_credential)))
    by (vm_compute; reflexivity).
  assert (Hd : disk Scenario.expired_both !! token_path V3
               = Some (JSON_stringify
                         (<["expiration" := JStr (toISOString (Scenario.t0 - 1000))]>
                            Scenario.plain_credential)))
    by (vm_compute; reflexivity).
  assert (He : (<["expiration" := JStr (toISOString (Scenario.t0 - 1000))]>
                  Scenario.plain_credential : Obj) !! "expiration"
               = Some (JStr (toISOString (Scenario.t0 - 1000))))
    by (vm_compute; reflexivity).
  assert (Ht : Date_getTime (JStr (toISOString (Scenario.t0 - 1000)))
               = Some (Scenario.t0 - 1000))
    by (vm_compute; reflexivity).
  assert (Hr : (Cached.RequestLogin UbiAppId.v3 (Answered (Scenario.session "T" "S" ∅))
                                    (Scenario.t0 + 500) Scenario.expired_both).1
               = Normal (Some (<["expiration" := JStr "2024-01-01T00:30:00.500Z"]>
                                 (<["sessionId" := JStr "S"]> {["ticket" := JStr "T"]}))))
    by (vm_compute; reflexivity).
  destruct (refresh_on_expiry
              (Scenario.always (Answered (Scenario.session "T" "S" ∅)) Scenario.t0)
              Scenario.expired_both V3 _ _ _ Hd Hj He Ht) as (_ & Hone & Hexp).
  split; [|split; [exact Hr|]].
  - apply Hone. right. exists tt. vm_compute. reflexivity.
  - destruct (Hexp Scenario.expired_both _ Hr) as (r & Hreply & _ & Hlater).
    injection Hreply as <-.
    rewrite obj_lookup_insert_eq in Hlater. simpl in Hlater. apply Hlater.
    + reflexivity.
    + vm_compute. discriminate.
    + vm_compute. reflexivity.
Defined.

(** ** The validity rule *)

(** C1, as the specification states it, fails for the file cache.  The
    manager without a default logs in at [t0]; the server sends no
    expiration, so the token files hold a credential without one, obtained
    half a second after [t0].  A second later the rule of the specification
    calls that credential valid; [loadToken] answers [null] and [Login]
    logs in again for both applications. *)
Lemma credential_without_expiration_not_reused :
  file_credential (disk Scenario.after_plain_login !! token_path V2) (Scenario.t0 + 500)
  = Some {| cred_token := Some (JStr "T"); cred_sessionId := Some (JStr "S");
            cred_expiration := None; cred_obtained := Scenario.t0 + 500 |}
  /\ spec_valid (Scenario.t0 + 1000)
       (file_credential (disk Scenario.after_plain_login !! token_path V2)
                        (Scenario.t0 + 500))
     = true
  /\ (CachedPlain.loadToken V2 (Scenario.t0 + 1000) Scenario.after_plain_login).1
     = Normal None
  /\ (Cached.loadToken V2 (Scenario.t0 + 1000) Scenario.after_plain_login).1
     = Normal None
  /\ sent Scenario.after_plain_login = [UbiAppId.v2; UbiAppId.v3]
  /\ sent (CachedPlain.Login
             (Scenario.always (Answered (Scenario.session "T" "S" ∅)) (Scenario.t0 + 1000))
             Scenario.after_plain_login).2
     = [UbiAppId.v2; UbiAppId.v3; UbiAppId.v2; UbiAppId.v3].
Proof. vm_compute. repeat split. Qed.

Lemma shouldReauthenticate_valid this now :
  UbiAuth.shouldReauthenticate this now = false <->
  truthy_opt (UbiAuth.token this) = true
  /\ truthy_opt (UbiAuth.sessionId this) = true
  /\ exists t, UbiAuth.lastLoginTime this = Some t /\ t <> 0
               /\ now - t <= 30 * 60 * 1000.
Proof.
  unfold UbiAuth.shouldReauthenticate.
  rewrite !orb_false_iff, !negb_false_iff. split.
  - intros [[Ht Hs] Hl]. split; [assumption|]. split; [assumption|].
    destruct (UbiAuth.lastLoginTime this) as [t|]; [|discriminate].
    apply orb_false_iff in Hl as [H0 Hlate].
    exists t. split; [reflexivity|]. split.
    + now apply Z.eqb_neq.
    + apply Z.ltb_ge in Hlate. lia.
  - intros (Ht & Hs & t & -> & H0 & Hle). split; [split; assumption|].
    apply orb_false_iff. split.
    + now apply Z.eqb_neq.
    + apply Z.ltb_ge. lia.
Qed.

Lemma shouldReauthenticate_spec this now :
  negb (UbiAuth.shouldReauthenticate this now) = spec_valid now (memory_credential this).
Proof.
  unfold UbiAuth.shouldReauthenticate, memory_credential, spec_valid.
  destruct (UbiAuth.lastLoginTime this) as [t|].
  - destruct (truthy_opt (UbiAuth.token this)),
             (truthy_opt (UbiAuth.sessionId this)), (t =? 0); simpl; try reflexivity.
    now rewrite Z.leb_antisym.
  - destruct (truthy_opt (UbiAuth.token this)),
             (truthy_opt (UbiAuth.sessionId this)); reflexivity.
Qed.

Lemma getToken_sent `{Runtime} appId now reply now' s :
  UbiAuth.sent (UbiAuth.getToken appId now reply now' s).2
  = if UbiAuth.shouldReauthenticate (UbiAuth.this s) now
    then (UbiAuth.sent s ++ [appId])%list else UbiAuth.sent s.
Proof.
  destruct (UbiAuth.shouldReauthenticate (UbiAuth.this s) now) eqn:Hc.
  - destruct (UbiAuth.requestLogin appId reply s).1 as [[result|]|e] eqn:Hr.
    + now rewrite (UbiAuthFacts.getToken_logs_in appId now reply now' s result Hc Hr).
    + exfalso. destruct (login_fails reply) eqn:Hf.
      * destruct (UbiAuthFacts.requestLogin_fails appId reply s Hf) as [e He]. congruence.
      * destruct (UbiAuthFacts.requestLogin_ok appId reply s Hf) as (r & _ & Hok).
        congruence.
    + now rewrite (UbiAuthFacts.getToken_throws appId now reply now' s e Hc Hr).
  - now rewrite UbiAuthFacts.getToken_cached.
Qed.

Lemma CachedPlain_loadToken `{Runtime} version now w :
  CachedPlain.loadToken version now w = Cached.loadToken version now w.
Proof. reflexivity. Qed.

(** C1, amended. The two caches have each a rule of its own.  [getToken]
    of [ubi-auth.ts], whose credential has no expiration, reuses it exactly
    when token, session identifier and login time are set and the login is
    at most 30 minutes old (the rule of the specification for a credential
    without expiration), and sends a request exactly when that fails.
    [loadToken] of the file managers reuses a token file exactly when it
    parses to an object whose expiration is set and lies more than five
    minutes ahead; a credential without expiration is never reused.
    [loadToken] never throws and changes nothing, and [Login] sends a
    request for a version only when [loadToken] answered [null]. *)
Theorem validity_rule `{Runtime} :
  (forall this now,
     negb (UbiAuth.shouldReauthenticate this now)
     = spec_valid now (memory_credential this))
  /\ (forall this now,
     UbiAuth.shouldReauthenticate this now = false <->
     truthy_opt (UbiAuth.token this) = true
     /\ truthy_opt (UbiAuth.sessionId this) = true
     /\ exists t, UbiAuth.lastLoginTime this = Some t /\ t <> 0
                  /\ now - t <= 30 * 60 * 1000)
  /\ (forall appId now reply now' s,
     UbiAuth.sent (UbiAuth.getToken appId now reply now' s).2
     = if UbiAuth.shouldReauthenticate (UbiAuth.this s) now
       then (UbiAuth.sent s ++ [appId])%list else UbiAuth.sent s)
  /\ (forall version now w token,
     (Cached.loadToken version now w).1 = Normal (Some token) <->
     exists raw e t,
       disk w !! token_path version = Some raw
       /\ JSON_parse raw = Some (JObject token)
       /\ token !! "expiration" = Some e /\ truthy e = true
       /\ Date_getTime e = Some t /\ now + 5 * 60 * 1000 < t)
  /\ (forall version now w,
     exists found, Cached.loadToken version now w = (Normal found, w))
  /\ (forall version now w,
     CachedPlain.loadToken version now w = Cached.loadToken version now w)
  /\ (forall env w version,
     requests (app_of version) (Cached.Login env w).2 <> requests (app_of version) w ->
     (Cached.loadToken version (load_time env version) w).1 = Normal None).
Proof.
  split; [|split; [|split; [|split; [|split; [|split]]]]].
  - apply shouldReauthenticate_spec.
  - apply shouldReauthenticate_valid.
  - intros. apply getToken_sent.
  - intros version now w token. rewrite loadToken_run. simpl.
    rewrite <- peek_Some. split; [now intros [= ->]|now intros ->].
  - intros version now w. rewrite loadToken_run. eauto.
  - intros. apply CachedPlain_loadToken.
  - intros env w version Hne. rewrite loadToken_run. simpl.
    now rewrite (Login_requests_only_stale env w version Hne).
Qed.

(** With an expired token file [Login] sends a request, and [loadToken] had
    answered [null]. *)
Lemma validity_rule_expired_file :
  requests UbiAppId.v2
    (Cached.Login (Scenario.always (Answered (Scenario.session "T" "S" ∅)) Scenario.t0)
                  Scenario.expired_both).2
  <> requests UbiAppId.v2 Scenario.expired_both
  /\ (Cached.loadToken V2 Scenario.t0 Scenario.expired_both).1 = Normal None.
Proof.
  assert (Hne : requests UbiAppId.v2
                  (Cached.Login
                     (Scenario.always (Answered (Scenario.session "T" "S" ∅)) Scenario.t0)
                     Scenario.expired_both).2
                <> requests UbiAppId.v2 Scenario.expired_both)
    by (vm_compute; discriminate).
  split; [exact Hne|].
  exact (proj2 (proj2 (proj2 (proj2 (proj2 (proj2 validity_rule)))))
           (Scenario.always (Answered (Scenario.session "T" "S" ∅)) Scenario.t0)
           Scenario.expired_both V2 Hne).
Defined.

(** ** One slot for every application *)

(** C9: the code has one slot, not one per application.  Once a call of
    [getToken] for [appId] has logged in, a call for any other [appId']
    within thirty minutes returns the token and session identifier that
    were obtained for [appId], and sends nothing for [appId']. *)
Theorem getToken_slot_is_shared appId appId' now r now' later reply' later' s :
  UbiAuth.shouldReauthenticate (UbiAuth.this s) now = true ->
  login_fails (Answered r) = false ->
  truthy_opt (data r !! "ticket") = true ->
  now' <> 0 ->
  later - now' <= 30 * 60 * 1000 ->
  exists pair s1,
    UbiAuth.getToken appId now (Answered r) now' s = (Normal pair, s1)
    /\ UbiAuth.sent s1 = (UbiAuth.sent s ++ [appId])%list
    /\ UbiAuth.getToken appId' later reply' later' s1 = (Normal pair, s1).
Proof.
  intros Hc Hf Hticket H0 Hle.
  destruct (UbiAuthFacts.requestLogin_ok appId (Answered r) s Hf) as (r' & [= <-] & Hok).
  destruct (login_fails_cases _ Hf) as (r' & [= <-] & _ & Hh).
  rewrite (UbiAuthFacts.getToken_logs_in appId now (Answered r) now' s _ Hc Hok).
  eexists. eexists. split; [reflexivity|]. split; [reflexivity|].
  rewrite UbiAuthFacts.getToken_cached; [reflexivity|].
  apply shouldReauthenticate_valid. simpl.
  rewrite obj_lookup_insert_ne by discriminate. rewrite obj_lookup_insert_eq.
  split; [assumption|]. split.
  - simpl. destruct (headers r !! "ubi-sessionid") as [sid|]; simpl in *;
      [now rewrite Hh|discriminate].
  - exists now'. auto.
Qed.

(** A fresh manager logs in for one application; a second later the call
    for the other application is served the same pair. *)
Lemma getToken_slot_is_shared_v2_v3 :
  exists pair s1,
    UbiAuth.getToken "app-v2" Scenario.t0 (Answered (Scenario.session "T2" "S2" ∅))
                     (Scenario.t0 + 500) Scenario.fresh_manager
    = (Normal pair, s1)
    /\ UbiAuth.sent s1 = (UbiAuth.sent Scenario.fresh_manager ++ ["app-v2"])%list
    /\ UbiAuth.getToken "app-v3" (Scenario.t0 + 1000)
                        (Answered (Scenario.session "T3" "S3" ∅)) (Scenario.t0 + 1500) s1
       = (Normal pair, s1).
Proof.
  apply getToken_slot_is_shared; try reflexivity.
  - discriminate.
  - discriminate.
Defined.

(** * Further properties of the managers *)

(** ** A login that succeeds *)

Lemma login_succeeds r sid :
  validateStatus (status r) = true ->
  headers r !! "ubi-sessionid" = Some sid ->
  sid <> "" ->
  login_fails (Answered r) = false.
Proof.
  intros Hv Hh Hs. unfold login_fails. rewrite (settle_accepts _ Hv), Hh. simpl.
  now apply String.eqb_neq.
Qed.

Lemma login_fails_header r :
  login_fails (Answered r) = false ->
  exists sid, headers r !! "ubi-sessionid" = Some sid /\ sid <> "".
Proof.
  intros Hf. destruct (login_fails_cases _ Hf) as (r' & [= <-] & _ & Hh).
  destruct (headers r !! "ubi-sessionid") as [sid|]; [|discriminate].
  exists sid. split; [reflexivity|]. now apply String.eqb_neq.
Qed.

Lemma Legacy_RequestLogin_ok appId reply w :
  login_fails reply = false ->
  exists r, reply = Answered r
    /\ (Legacy.RequestLogin appId reply w).1
       = Normal (Some (<["sessionId" := JStr (default "" (headers r !! "ubi-sessionid"))]>
                         (data r))).
Proof.
  intros Hf. destruct (login_fails_cases _ Hf) as (r & -> & Hv & Hh).
  exists r. split; [reflexivity|].
  unfold Legacy.RequestLogin. run. rewrite (settle_accepts _ Hv). simpl.
  rewrite Hh. reflexivity.
Qed.

Lemma plain_RequestLogin_ok `{Runtime} appId reply w :
  login_fails reply = false ->
  exists r, reply = Answered r
    /\ (CachedPlain.RequestLogin appId reply w).1
       = Normal (Some (<["sessionId" := JStr (default "" (headers r !! "ubi-sessionid"))]>
                         (data r))).
Proof.
  intros Hf. destruct (login_fails_cases _ Hf) as (r & -> & Hv & Hh).
  exists r. split; [reflexivity|].
  unfold CachedPlain.RequestLogin. run. rewrite (settle_accepts _ Hv). simpl.
  rewrite Hh. reflexivity.
Qed.

(** X1. On a response that is 2xx and has the session header, the login
    returns the body of the response with the member [sessionId] set to the
    value of the header: the header wins over a [sessionId] the body may
    have, and every other member of the body is kept as it is.  A body that
    is [null] has no members, and the credential is the session identifier
    alone.  The manager with the default differs twice: the member
    [expiration] is its own, and on a [null] body it returns nothing, the
    reading of [response.data.expiration] throwing a [TypeError]. *)
Theorem login_credential_members `{Runtime} r sid :
  validateStatus (status r) = true ->
  headers r !! "ubi-sessionid" = Some sid ->
  sid <> "" ->
  (forall appId s, exists token,
      (UbiAuth.requestLogin appId (Answered r) s).1 = Normal (Some token)
      /\ token !! "sessionId" = Some (JStr sid)
      /\ forall k, k <> "sessionId" -> token !! k = data r !! k)
  /\ (forall appId w, exists token,
      (Legacy.RequestLogin appId (Answered r) w).1 = Normal (Some token)
      /\ token !! "sessionId" = Some (JStr sid)
      /\ forall k, k <> "sessionId" -> token !! k = data r !! k)
  /\ (forall appId w, exists token,
      (CachedPlain.RequestLogin appId (Answered r) w).1 = Normal (Some token)
      /\ token !! "sessionId" = Some (JStr sid)
      /\ forall k, k <> "sessionId" -> token !! k = data r !! k)
  /\ (forall appId now w,
      match body r with
      | NullBody =>
          (Cached.RequestLogin appId (Answered r) now w).1 = Abrupt TypeError
      | ObjectBody _ =>
          exists token,
            (Cached.RequestLogin appId (Answered r) now w).1 = Normal (Some token)
            /\ token !! "sessionId" = Some (JStr sid)
            /\ forall k, k <> "sessionId" -> k <> "expiration" ->
                         token !! k = data r !! k
      end).
Proof.
  intros Hv Hh Hs. pose proof (login_succeeds r sid Hv Hh Hs) as Hf.
  split; [|split; [|split]].
  - intros appId s.
    destruct (UbiAuthFacts.requestLogin_ok appId _ s Hf) as (r' & [= <-] & ->).
    eexists. split; [reflexivity|]. rewrite Hh. simpl. split.
    + apply obj_lookup_insert_eq.
    + intros k Hk. now rewrite obj_lookup_insert_ne.
  - intros appId w.
    destruct (Legacy_RequestLogin_ok appId _ w Hf) as (r' & [= <-] & ->).
    eexists. split; [reflexivity|]. rewrite Hh. simpl. split.
    + apply obj_lookup_insert_eq.
    + intros k Hk. now rewrite obj_lookup_insert_ne.
  - intros appId w.
    destruct (plain_RequestLogin_ok appId _ w Hf) as (r' & [= <-] & ->).
    eexists. split; [reflexivity|]. rewrite Hh. simpl. split.
    + apply obj_lookup_insert_eq.
    + intros k Hk. now rewrite obj_lookup_insert_ne.
  - intros appId now w. destruct (body r) as [|o] eqn:Hb.
    + apply RequestLogin_null; [assumption|]. simpl. now rewrite Hb.
    + assert (Hg : grants (Answered r) = true)
        by (unfold grants; rewrite Hf; simpl; now rewrite Hb).
      destruct (RequestLogin_ok appId _ now w Hg) as (r' & [= <-] & ->).
      eexists. split; [reflexivity|]. rewrite Hh. simpl. split.
      * rewrite obj_lookup_insert_ne by discriminate. apply obj_lookup_insert_eq.
      * intros k Hk Hk'. rewrite obj_lookup_insert_ne by congruence.
        now rewrite obj_lookup_insert_ne.
Qed.

(** The body says [sessionId: "B"], the header says [H]: the credential
    has [H].  On a body that is [null] the manager with the default throws. *)
Lemma login_credential_members_header_wins :
  (exists token,
    (UbiAuth.requestLogin "app" (Answered Cases.session_with_body_id)
                          Scenario.fresh_manager).1 = Normal (Some token)
    /\ token !! "sessionId" = Some (JStr "H")
    /\ forall k, k <> "sessionId" -> token !! k = data Cases.session_with_body_id !! k)
  /\ (Cached.RequestLogin UbiAppId.v2 (Answered Cases.session_null) Scenario.t0
                          Scenario.idle).1 = Abrupt TypeError.
Proof.
  split.
  - apply (proj1 (login_credential_members Cases.session_with_body_id "H"
                    eq_refl eq_refl ltac:(discriminate)) "app" Scenario.fresh_manager).
  - apply (proj2 (proj2 (proj2 (login_credential_members Cases.session_null "S"
                    eq_refl eq_refl ltac:(discriminate)))) UbiAppId.v2 Scenario.t0
             Scenario.idle).
Defined.

(** X2. A call of [getToken] that logs in with success returns the ticket
    of the body and the session identifier of the header, keeps them, and
    takes as login time the clock read after the login has returned, not the
    one read before it; one request goes out, with the [appId] of the
    call. *)
Theorem getToken_stores_login appId now r sid now' s :
  UbiAuth.shouldReauthenticate (UbiAuth.this s) now = true ->
  validateStatus (status r) = true ->
  headers r !! "ubi-sessionid" = Some sid ->
  sid <> "" ->
  UbiAuth.getToken appId now (Answered r) now' s
  = (Normal (data r !! "ticket", Some (JStr sid)),
     {| UbiAuth.this := {| UbiAuth.token := data r !! "ticket";
                           UbiAuth.sessionId := Some (JStr sid);
                           UbiAuth.lastLoginTime := Some now' |};
        UbiAuth.sent := (UbiAuth.sent s ++ [appId])%list |}).
Proof.
  intros Hc Hv Hh Hs. pose proof (login_succeeds r sid Hv Hh Hs) as Hf.
  destruct (UbiAuthFacts.requestLogin_ok appId _ s Hf) as (r' & [= <-] & Hok).
  rewrite (UbiAuthFacts.getToken_logs_in appId now _ now' s _ Hc Hok).
  rewrite Hh. simpl. rewrite obj_lookup_insert_eq.
  rewrite obj_lookup_insert_ne by discriminate. reflexivity.
Qed.

(** A fresh manager, a session whose body has its own [sessionId]. *)
Lemma getToken_stores_login_fresh :
  UbiAuth.getToken "app" Scenario.t0 (Answered Cases.session_with_body_id)
                   (Scenario.t0 + 500) Scenario.fresh_manager
  = (Normal (Some (JStr "T"), Some (JStr "H")),
     {| UbiAuth.this := {| UbiAuth.token := Some (JStr "T");
                           UbiAuth.sessionId := Some (JStr "H");
                           UbiAuth.lastLoginTime := Some (Scenario.t0 + 500) |};
        UbiAuth.sent := ["app"] |}).
Proof.
  apply (getToken_stores_login "app" Scenario.t0 Cases.session_with_body_id "H"
           (Scenario.t0 + 500) Scenario.fresh_manager eq_refl eq_refl eq_refl).
  discriminate.
Defined.

(** ** How long the slot of [ubi-auth.ts] lasts *)

Lemma shouldReauthenticate_later this now later :
  UbiAuth.shouldReauthenticate this now = true ->
  now <= later ->
  UbiAuth.shouldReauthenticate this later = true.
Proof.
  unfold UbiAuth.shouldReauthenticate. intros Hc Hle.
  destruct (negb (truthy_opt (UbiAuth.token this))); [reflexivity|].
  destruct (negb (truthy_opt (UbiAuth.sessionId this))); [reflexivity|].
  simpl in *. destruct (UbiAuth.lastLoginTime this) as [t|]; [|reflexivity].
  destruct (t =? 0); [reflexivity|]. simpl in *.
  apply Z.ltb_lt in Hc. apply Z.ltb_lt. lia.
Qed.

Lemma shouldReauthenticate_stored ticket sid t later :
  truthy_opt ticket = true ->
  sid <> "" ->
  t <> 0 ->
  UbiAuth.shouldReauthenticate
    {| UbiAuth.token := ticket; UbiAuth.sessionId := Some (JStr sid);
       UbiAuth.lastLoginTime := Some t |} later
  = (30 * 60 * 1000 <? later - t).
Proof.
  intros Ht Hs H0. unfold UbiAuth.shouldReauthenticate. simpl. rewrite Ht. simpl.
  apply String.eqb_neq in Hs. rewrite Hs. simpl.
  apply Z.eqb_neq in H0. now rewrite H0.
Qed.

Lemma getToken_login_state appId now r sid now' s :
  UbiAuth.shouldReauthenticate (UbiAuth.this s) now = true ->
  validateStatus (status r) = true ->
  headers r !! "ubi-sessionid" = Some sid ->
  sid <> "" ->
  UbiAuth.getToken appId now (Answered r) now' s
  = (Normal (data r !! "ticket", Some (JStr sid)),
     {| UbiAuth.this := {| UbiAuth.token := data r !! "ticket";
                           UbiAuth.sessionId := Some (JStr sid);
                           UbiAuth.lastLoginTime := Some now' |};
        UbiAuth.sent := (UbiAuth.sent s ++ [appId])%list |}).
Proof.
  intros Hc Hv Hh Hs. pose proof (login_succeeds r sid Hv Hh Hs) as Hf.
  destruct (UbiAuthFacts.requestLogin_ok appId _ s Hf) as (r' & [= <-] & Hok).
  rewrite (UbiAuthFacts.getToken_logs_in appId now _ now' s _ Hc Hok).
  rewrite Hh. simpl. rewrite obj_lookup_insert_eq.
  rewrite obj_lookup_insert_ne by discriminate. reflexivity.
Qed.

(** X3. The credential a call of [getToken] has obtained is served for
    thirty minutes counted from the clock read after that login: a later
    call sends a request exactly when more than 30 * 60 * 1000 ms have
    passed since then; at exactly thirty minutes the credential is still
    served. *)
Theorem cache_lifetime appId now r sid now' appId' later reply' later' s :
  UbiAuth.shouldReauthenticate (UbiAuth.this s) now = true ->
  validateStatus (status r) = true ->
  headers r !! "ubi-sessionid" = Some sid ->
  sid <> "" ->
  truthy_opt (data r !! "ticket") = true ->
  now' <> 0 ->
  (later - now' <= 30 * 60 * 1000 ->
   UbiAuth.getToken appId' later reply' later'
     (UbiAuth.getToken appId now (Answered r) now' s).2
   = (Normal (data r !! "ticket", Some (JStr sid)),
      (UbiAuth.getToken appId now (Answered r) now' s).2))
  /\ (30 * 60 * 1000 < later - now' ->
      UbiAuth.sent (UbiAuth.getToken appId' later reply' later'
                      (UbiAuth.getToken appId now (Answered r) now' s).2).2
      = (UbiAuth.sent s ++ [appId; appId'])%list).
Proof.
  intros Hc Hv Hh Hs Ht H0.
  rewrite (getToken_login_state appId now r sid now' s Hc Hv Hh Hs). simpl.
  split; intros Hage.
  - rewrite UbiAuthFacts.getToken_cached; [reflexivity|]. simpl.
    rewrite (shouldReauthenticate_stored _ _ _ later Ht Hs H0).
    apply Z.ltb_ge. lia.
  - rewrite getToken_sent. simpl.
    rewrite (shouldReauthenticate_stored _ _ _ later Ht Hs H0).
    apply Z.ltb_lt in Hage. rewrite Hage. now rewrite <- app_assoc.
Qed.

(** A login at [t0 + 500]: served thirty minutes later to the millisecond,
    and a request one millisecond after that. *)
Lemma cache_lifetime_boundary :
  UbiAuth.getToken "app" (Scenario.t0 + 500 + 30 * 60 * 1000) (Unreachable "ETIMEDOUT")
                   (Scenario.t0 + 500 + 30 * 60 * 1000)
    (UbiAuth.getToken "app" Scenario.t0 (Answered (Scenario.session "T" "S" ∅))
                      (Scenario.t0 + 500) Scenario.fresh_manager).2
  = (Normal (Some (JStr "T"), Some (JStr "S")),
     (UbiAuth.getToken "app" Scenario.t0 (Answered (Scenario.session "T" "S" ∅))
                       (Scenario.t0 + 500) Scenario.fresh_manager).2)
  /\ UbiAuth.sent
       (UbiAuth.getToken "app" (Scenario.t0 + 500 + 30 * 60 * 1000 + 1)
                         (Unreachable "ETIMEDOUT") (Scenario.t0 + 500 + 30 * 60 * 1000 + 1)
          (UbiAuth.getToken "app" Scenario.t0 (Answered (Scenario.session "T" "S" ∅))
                            (Scenario.t0 + 500) Scenario.fresh_manager).2).2
     = ["app"; "app"].
Proof.
  split.
  - apply (proj1 (cache_lifetime "app" Scenario.t0 (Scenario.session "T" "S" ∅) "S"
                    (Scenario.t0 + 500) "app" (Scenario.t0 + 500 + 30 * 60 * 1000)
                    (Unreachable "ETIMEDOUT") (Scenario.t0 + 500 + 30 * 60 * 1000)
                    Scenario.fresh_manager eq_refl eq_refl eq_refl
                    ltac:(discriminate) eq_refl ltac:(discriminate))).
    vm_compute. discriminate.
  - apply (proj2 (cache_lifetime "app" Scenario.t0 (Scenario.session "T" "S" ∅) "S"
                    (Scenario.t0 + 500) "app" (Scenario.t0 + 500 + 30 * 60 * 1000 + 1)
                    (Unreachable "ETIMEDOUT") (Scenario.t0 + 500 + 30 * 60 * 1000 + 1)
                    Scenario.fresh_manager eq_refl eq_refl eq_refl
                    ltac:(discriminate) eq_refl ltac:(discriminate))).
    vm_compute. reflexivity.
Defined.

(** X4. A session granted without a ticket (the body has none, or an empty
    one) is returned to the caller as it is, with the token undefined or
    empty, and is never served again: whatever the clock, the next call of
    [getToken] logs in anew. *)
Theorem login_without_ticket appId now r sid now' appId' later reply' later' s :
  UbiAuth.shouldReauthenticate (UbiAuth.this s) now = true ->
  validateStatus (status r) = true ->
  headers r !! "ubi-sessionid" = Some sid ->
  sid <> "" ->
  truthy_opt (data r !! "ticket") = false ->
  (UbiAuth.getToken appId now (Answered r) now' s).1
  = Normal (data r !! "ticket", Some (JStr sid))
  /\ UbiAuth.sent (UbiAuth.getToken appId' later reply' later'
                     (UbiAuth.getToken appId now (Answered r) now' s).2).2
     = (UbiAuth.sent s ++ [appId; appId'])%list.
Proof.
  intros Hc Hv Hh Hs Ht.
  rewrite (getToken_login_state appId now r sid now' s Hc Hv Hh Hs). simpl.
  split; [reflexivity|].
  rewrite getToken_sent. simpl. unfold UbiAuth.shouldReauthenticate. simpl.
  rewrite Ht. simpl. now rewrite <- app_assoc.
Qed.

(** A body without a ticket: the token is undefined and the next call,
    made at once, logs in again. *)
Lemma login_without_ticket_at_once :
  (UbiAuth.getToken "app" Scenario.t0 (Answered Cases.session_without_ticket)
                    (Scenario.t0 + 500) Scenario.fresh_manager).1
  = Normal (None, Some (JStr "S"))
  /\ UbiAuth.sent
       (UbiAuth.getToken "app" (Scenario.t0 + 500) (Answered Cases.session_without_ticket)
                         (Scenario.t0 + 1000)
          (UbiAuth.getToken "app" Scenario.t0 (Answered Cases.session_without_ticket)
                            (Scenario.t0 + 500) Scenario.fresh_manager).2).2
     = ["app"; "app"].
Proof.
  apply (login_without_ticket "app" Scenario.t0 Cases.session_without_ticket "S"
           (Scenario.t0 + 500) "app" (Scenario.t0 + 500)
           (Answered Cases.session_without_ticket) (Scenario.t0 + 1000)
           Scenario.fresh_manager eq_refl eq_refl eq_refl ltac:(discriminate) eq_refl).
Defined.

(** X5. A failure is not remembered.  After a call of [getToken] whose
    login failed, the next call, at any clock that is not earlier, sends a
    request again: nothing delays or limits the retries. *)
Theorem failed_login_is_retried appId now reply now' appId' later reply' later' s :
  UbiAuth.shouldReauthenticate (UbiAuth.this s) now = true ->
  login_fails reply = true ->
  now <= later ->
  UbiAuth.sent (UbiAuth.getToken appId' later reply' later'
                  (UbiAuth.getToken appId now reply now' s).2).2
  = (UbiAuth.sent s ++ [appId; appId'])%list.
Proof.
  intros Hc Hf Hle.
  destruct (UbiAuthFacts.requestLogin_fails appId reply s Hf) as [e He].
  rewrite (UbiAuthFacts.getToken_throws appId now reply now' s e Hc He).
  rewrite getToken_sent. simpl.
  rewrite (shouldReauthenticate_later _ _ _ Hc Hle). now rewrite <- app_assoc.
Qed.

(** Two calls a millisecond apart against a server that answers 429. *)
Lemma failed_login_is_retried_429 :
  UbiAuth.sent
    (UbiAuth.getToken "app" (Scenario.t0 + 1) (Answered (Scenario.refused 429))
                      (Scenario.t0 + 2)
       (UbiAuth.getToken "app" Scenario.t0 (Answered (Scenario.refused 429))
                         (Scenario.t0 + 1) Scenario.fresh_manager).2).2
  = ["app"; "app"].
Proof.
  apply (failed_login_is_retried "app" Scenario.t0 (Answered (Scenario.refused 429))
           (Scenario.t0 + 1) "app" (Scenario.t0 + 1) (Answered (Scenario.refused 429))
           (Scenario.t0 + 2) Scenario.fresh_manager eq_refl eq_refl).
  vm_compute. discriminate.
Defined.

(** ** No response at all *)

Lemma no_response_has_no_kind k : surfaces_as (AxiosError None) k = false.
Proof. destruct k; reflexivity. Qed.

(** X6. When no response arrives (the connection fails), the login of every
    manager rethrows the error of axios as it is, after the one request; it
    is none of the kinds of the taxonomy.  [getToken] hands it to its caller
    and keeps its fields; [Login] prints it and stops. *)
Theorem unreachable_is_rethrown `{Runtime} code :
  (forall appId s,
     UbiAuth.requestLogin appId (Unreachable code) s
     = (Abrupt (AxiosError None), UbiAuth.sending appId s))
  /\ (forall appId w,
     Legacy.RequestLogin appId (Unreachable code) w
     = (Abrupt (AxiosError None), sending appId w))
  /\ (forall appId now w,
     Cached.RequestLogin appId (Unreachable code) now w
     = (Abrupt (AxiosError None), sending appId w))
  /\ (forall appId w,
     CachedPlain.RequestLogin appId (Unreachable code) w
     = (Abrupt (AxiosError None), sending appId w))
  /\ (forall k, surfaces_as (AxiosError None) k = false)
  /\ (forall appId now now' s,
     UbiAuth.shouldReauthenticate (UbiAuth.this s) now = true ->
     UbiAuth.getToken appId now (Unreachable code) now' s
     = (Abrupt (AxiosError None), UbiAuth.sending appId s))
  /\ (forall env w,
     (Cached.loadToken V2 (load_time env V2) w).1 = Normal None ->
     reply env UbiAppId.v2 = Unreachable code ->
     Cached.Login env w
     = (Normal tt,
        printing (Some "Login failed:") (AxiosError None) (sending UbiAppId.v2 w))).
Proof.
  repeat split.
  - apply no_response_has_no_kind.
  - intros appId now now' s Hc. now apply UbiAuthFacts.getToken_throws.
  - intros env w Hl Hr. rewrite loadToken_run in Hl. simpl in Hl. injection Hl as Hl.
    apply Login_first_failure; [assumption|]. now rewrite Hr.
Qed.

(** The network is down and the directory empty: [Login] prints the error
    of axios. *)
Lemma unreachable_is_rethrown_Login :
  Cached.Login (Scenario.always (Unreachable "ENOTFOUND") Scenario.t0) Scenario.idle
  = (Normal tt,
     printing (Some "Login failed:") (AxiosError None)
              (sending UbiAppId.v2 Scenario.idle)).
Proof.
  apply (proj2 (proj2 (proj2 (proj2 (proj2 (proj2
           (unreachable_is_rethrown "ENOTFOUND"))))))); reflexivity.
Defined.

(** ** What [Login] of the manager with the default touches *)

Section FootprintFacts.
Context `{Runtime}.
Import Cached.

Lemma reusable_peek version now w :
  reusable version now w
  = match peek (disk w !! token_path version) now with
    | Some _ => true
    | None => false
    end.
Proof. unfold reusable. rewrite loadToken_run. reflexivity. Qed.

(** The four ways a block ends. *)
Lemma refresh_cases version env w :
  (reusable version (load_time env version) w = true
   /\ refresh version env w = (Normal tt, w))
  \/ (reusable version (load_time env version) w = false
      /\ grants (reply env (app_of version)) = false
      /\ exists e,
           (RequestLogin (app_of version) (reply env (app_of version))
                         (login_time env (app_of version)) w).1 = Abrupt e
           /\ refresh version env w = (Abrupt e, sending (app_of version) w))
  \/ (reusable version (load_time env version) w = false
      /\ grants (reply env (app_of version)) = true
      /\ writable w = true
      /\ exists token,
           (RequestLogin (app_of version) (reply env (app_of version))
                         (login_time env (app_of version)) w).1 = Normal (Some token)
           /\ refresh version env w
              = (Normal tt,
                 writing (token_path version) (JSON_stringify token)
                         (sending (app_of version) w)))
  \/ (reusable version (load_time env version) w = false
      /\ grants (reply env (app_of version)) = true
      /\ writable w = false
      /\ (exists token,
           (RequestLogin (app_of version) (reply env (app_of version))
                         (login_time env (app_of version)) w).1 = Normal (Some token))
      /\ refresh version env w
         = (Abrupt (SystemError "EACCES"), sending (app_of version) w)).
Proof.
  rewrite reusable_peek, refresh_run.
  destruct (peek _ _) as [token|]; [left; split; reflexivity|right].
  destruct (grants (reply env (app_of version))) eqn:Hg.
  - right. destruct (RequestLogin_ok (app_of version) _ (login_time env (app_of version))
                       w Hg) as (r & Hr & Hok).
    rewrite Hok. unfold fs_writeFile. simpl.
    destruct (writable w) eqn:Hw.
    + left. repeat split. eexists. split; reflexivity.
    + right. repeat split. eauto.
  - left. split; [reflexivity|]. split; [reflexivity|].
    destruct (RequestLogin_throws (app_of version) _ (login_time env (app_of version)) w Hg)
      as [e He].
    rewrite He. eauto.
Qed.

Lemma reusable_after_first_block env w now :
  reusable V3 now (refresh V2 env w).2 = reusable V3 now w.
Proof. now rewrite !reusable_peek, peek_after_first_block. Qed.

Lemma refresh_writable version env w :
  writable (refresh version env w).2 = writable w.
Proof.
  destruct (refresh_cases version env w)
    as [[_ ->]|[(_ & _ & e & _ & ->)|[(_ & _ & _ & token & _ & ->)|(_ & _ & _ & _ & ->)]]];
    reflexivity.
Qed.

Lemma refresh_errors version env w :
  errors (refresh version env w).2 = errors w.
Proof.
  destruct (refresh_cases version env w)
    as [[_ ->]|[(_ & _ & e & _ & ->)|[(_ & _ & _ & token & _ & ->)|(_ & _ & _ & _ & ->)]]];
    reflexivity.
Qed.

Lemma refresh_sent version env w :
  sent (refresh version env w).2
  = (sent w ++ if reusable version (load_time env version) w
               then [] else [app_of version])%list.
Proof.
  destruct (refresh_cases version env w)
    as [[-> ->]|[(-> & _ & e & _ & ->)
                |[(-> & _ & _ & token & _ & ->)|(-> & _ & _ & _ & ->)]]];
    simpl; try reflexivity.
  now rewrite app_nil_r.
Qed.

Lemma refresh_completes version env w :
  match (refresh version env w).1 with Normal _ => true | Abrupt _ => false end
  = reusable version (load_time env version) w
    || (grants (reply env (app_of version)) && writable w).
Proof.
  destruct (refresh_cases version env w)
    as [[-> ->]|[(-> & -> & e & _ & ->)
                |[(-> & -> & -> & token & _ & ->)|(-> & -> & -> & _ & ->)]]];
    reflexivity.
Qed.

(** What a block throws: the error of its login, or the refusal of the
    write after the login has returned. *)
Lemma refresh_thrown version env w e :
  (refresh version env w).1 = Abrupt e ->
  (RequestLogin (app_of version) (reply env (app_of version))
                (login_time env (app_of version)) w).1 = Abrupt e
  \/ (e = SystemError "EACCES" /\ writable w = false
      /\ exists token,
           (RequestLogin (app_of version) (reply env (app_of version))
                         (login_time env (app_of version)) w).1 = Normal (Some token)).
Proof.
  destruct (refresh_cases version env w)
    as [[_ ->]|[(_ & _ & e' & He & ->)
               |[(_ & _ & _ & token & _ & ->)|(_ & _ & Hw & Ht & ->)]]];
    simpl; try discriminate.
  - intros [= <-]. now left.
  - intros [= <-]. right. auto.
Qed.

End FootprintFacts.

(** X7. Whatever the files, the clock and the server, [Login] completes
    normally and changes in the directory at most the two token files.  It
    prints nothing when both blocks complete, and otherwise one line: under
    the label [Login failed:], the error thrown by the block that stopped
    it, the first if it threw, else the second.  What a block throws is
    what its login threw or, when the login returned a credential, the
    refusal of the write by the file system. *)
Theorem Login_footprint `{Runtime} env w :
  (Cached.Login env w).1 = Normal tt
  /\ (forall path, path <> TOKEN_PATH_V2 -> path <> TOKEN_PATH_V3 ->
      disk (Cached.Login env w).2 !! path = disk w !! path)
  /\ writable (Cached.Login env w).2 = writable w
  /\ errors (Cached.Login env w).2
     = match (Cached.refresh V2 env w).1 with
       | Abrupt e => (errors w ++ [(Some "Login failed:", e)])%list
       | Normal _ =>
           match (Cached.refresh V3 env (Cached.refresh V2 env w).2).1 with
           | Abrupt e => (errors w ++ [(Some "Login failed:", e)])%list
           | Normal _ => errors w
           end
       end
  /\ (forall version w' e,
      (Cached.refresh version env w').1 = Abrupt e ->
      (Cached.RequestLogin (app_of version) (reply env (app_of version))
                           (login_time env (app_of version)) w').1 = Abrupt e
      \/ (e = SystemError "EACCES" /\ writable w' = false
          /\ exists token,
               (Cached.RequestLogin (app_of version) (reply env (app_of version))
                                    (login_time env (app_of version)) w').1
               = Normal (Some token))).
Proof.
  split; [apply Login_completes|]. split; [|split; [|split]].
  - intros path H2 H3. destruct (Login_disk env w) as [-> | ->].
    + now apply refresh_disk_other.
    + rewrite refresh_disk_other by assumption. now apply refresh_disk_other.
  - rewrite Login_world.
    pose proof (refresh_writable V2 env w) as Hw1.
    destruct (Cached.refresh V2 env w) as [[[]|e] w1]; simpl in *; [|assumption].
    pose proof (refresh_writable V3 env w1) as Hw2.
    destruct (Cached.refresh V3 env w1) as [[[]|e] w2]; simpl in *; congruence.
  - rewrite Login_world.
    pose proof (refresh_errors V2 env w) as He1.
    destruct (Cached.refresh V2 env w) as [[[]|e] w1]; simpl in *.
    + pose proof (refresh_errors V3 env w1) as He2.
      destruct (Cached.refresh V3 env w1) as [[[]|e] w2]; simpl in *; congruence.
    + congruence.
  - intros version w' e. apply refresh_thrown.
Qed.

(** The server answers 401 and the directory is empty: [Login] prints the
    string its login threw, and nothing else changes but the request sent. *)
Lemma Login_footprint_401 :
  errors (Cached.Login (Scenario.always (Answered (Scenario.refused 401)) Scenario.t0)
                       Scenario.idle).2
  = [(Some "Login failed:", Literal "Account does not exist.")].
Proof.
  exact (proj1 (proj2 (proj2 (proj2
           (Login_footprint (Scenario.always (Answered (Scenario.refused 401)) Scenario.t0)
                            Scenario.idle))))).
Defined.

(** X8. The requests of one run of [Login], in full: one for the first
    application unless its token file is reused; then, if the first block
    got through (its file was reused, or its login returned a credential,
    which it does on a 2xx response that has the session header and a body
    that is not [null], and the credential could be written), one for the
    second application unless its token file is reused.  Never more than
    one for an application, never the second before the first. *)
Theorem Login_requests_sent `{Runtime} env w :
  sent (Cached.Login env w).2
  = (sent w
     ++ (if reusable V2 (load_time env V2) w then [] else [UbiAppId.v2])
     ++ (if reusable V2 (load_time env V2) w
            || (grants (reply env UbiAppId.v2) && writable w)
         then if reusable V3 (load_time env V3) w then [] else [UbiAppId.v3]
         else []))%list.
Proof.
  rewrite Login_world.
  pose proof (refresh_sent V2 env w) as Hs1.
  pose proof (refresh_completes V2 env w) as Hc1.
  pose proof (reusable_after_first_block env w (load_time env V3)) as Hr3.
  simpl app_of in *. rewrite <- Hc1.
  destruct (Cached.refresh V2 env w) as [[[]|e] w1]; simpl in *.
  - pose proof (refresh_sent V3 env w1) as Hs2. rewrite Hr3 in Hs2.
    destruct (Cached.refresh V3 env w1) as [[[]|e] w2]; simpl in *;
      rewrite Hs2, Hs1; now rewrite app_assoc.
  - rewrite Hs1. now rewrite app_nil_r.
Qed.

(** The server grants the session with a [null] body and the directory is
    empty: the login of the first application throws, and no request goes
    out for the second. *)
Lemma Login_requests_sent_null_body :
  sent (Cached.Login (Scenario.always (Answered Cases.session_null) Scenario.t0)
                     Scenario.idle).2
  = [UbiAppId.v2].
Proof.
  eapply eq_trans.
  - apply (Login_requests_sent (Scenario.always (Answered Cases.session_null) Scenario.t0)
                               Scenario.idle).
  - vm_compute. reflexivity.
Defined.

(** ** A run of [Login] that refreshes *)

Section RefreshFacts.
Context `{Runtime}.
Import Cached.

Lemma rethrow_pure too_many e w w' :
  (rethrow too_many e w).1 = (rethrow too_many e w').1.
Proof.
  unfold rethrow, throw.
  destruct (isAxiosError e); [|reflexivity].
  destruct (response_status e) as [st|]; [|reflexivity].
  destruct (st =? 0); [reflexivity|].
  destruct (st =? 401); [reflexivity|].
  destruct (st =? 409); [reflexivity|].
  destruct (st =? 429); reflexivity.
Qed.

(** What a login returns or throws does not depend on the directory. *)
Lemma RequestLogin_pure appId reply now w w' :
  (RequestLogin appId reply now w).1 = (RequestLogin appId reply now w').1.
Proof.
  unfold RequestLogin. unfold try_catch, mbind, M_bind, axios.
  destruct (settle reply) as [e|r]; simpl.
  - pose proof (rethrow_pure "Too many requests. Rate limit hit." e
                  (sending appId w) (sending appId w')) as Hp.
    destruct (rethrow _ e (sending appId w)), (rethrow _ e (sending appId w')).
    exact Hp.
  - destruct (header_missing _); [reflexivity|]. destruct (body r); reflexivity.
Qed.

Lemma refresh_saves version env w token :
  reusable version (load_time env version) w = false ->
  writable w = true ->
  (RequestLogin (app_of version) (reply env (app_of version))
                (login_time env (app_of version)) w).1 = Normal (Some token) ->
  refresh version env w
  = (Normal tt,
     writing (token_path version) (JSON_stringify token) (sending (app_of version) w)).
Proof.
  intros Hr Hw Ht. rewrite reusable_peek in Hr. rewrite refresh_run.
  destruct (peek _ _); [discriminate|]. rewrite Ht. unfold fs_writeFile. simpl.
  now rewrite Hw.
Qed.

Lemma refresh_write_refused version env w token :
  reusable version (load_time env version) w = false ->
  writable w = false ->
  (RequestLogin (app_of version) (reply env (app_of version))
                (login_time env (app_of version)) w).1 = Normal (Some token) ->
  refresh version env w
  = (Abrupt (SystemError "EACCES"), sending (app_of version) w).
Proof.
  intros Hr Hw Ht. rewrite reusable_peek in Hr. rewrite refresh_run.
  destruct (peek _ _); [discriminate|]. rewrite Ht. unfold fs_writeFile. simpl.
  now rewrite Hw.
Qed.

Lemma reusable_false version now w :
  (loadToken version now w).1 = Normal None -> reusable version now w = false.
Proof. unfold reusable. now intros ->. Qed.

(** Loading a file just written. *)
Lemma loadToken_written version now token w :
  JSON_parse (JSON_stringify token) = Some (JObject token) ->
  disk w !! token_path version = Some (JSON_stringify token) ->
  (loadToken version now w).1 = Normal (if fresh token now then Some token else None).
Proof.
  intros Hj Hd. rewrite loadToken_run. simpl. unfold peek. now rewrite Hd, Hj.
Qed.

End RefreshFacts.

(** X9. When neither token file is reused, both logins succeed and the
    directory takes the writes, one run of [Login] sends the two requests,
    first application first, writes into each token file the text of the
    credential of its login, the first file first, and prints nothing. *)
Theorem Login_refreshes_both `{Runtime} env w token2 token3 :
  (Cached.loadToken V2 (load_time env V2) w).1 = Normal None ->
  (Cached.loadToken V3 (load_time env V3) w).1 = Normal None ->
  writable w = true ->
  (Cached.RequestLogin UbiAppId.v2 (reply env UbiAppId.v2)
                       (login_time env UbiAppId.v2) w).1 = Normal (Some token2) ->
  (Cached.RequestLogin UbiAppId.v3 (reply env UbiAppId.v3)
                       (login_time env UbiAppId.v3) w).1 = Normal (Some token3) ->
  Cached.Login env w
  = (Normal tt,
     {| disk := <[TOKEN_PATH_V3 := JSON_stringify token3]>
                  (<[TOKEN_PATH_V2 := JSON_stringify token2]> (disk w));
        writable := true;
        sent := (sent w ++ [UbiAppId.v2; UbiAppId.v3])%list;
        errors := errors w |}).
Proof.
  intros H2 H3 Hw Ht2 Ht3.
  apply reusable_false in H2, H3.
  rewrite Login_world, (refresh_saves V2 env w token2 H2 Hw Ht2).
  rewrite (refresh_saves V3 env _ token3).
  - unfold writing, sending. simpl. rewrite Hw, <- app_assoc. reflexivity.
  - pose proof (reusable_after_first_block env w (load_time env V3)) as Hr.
    rewrite (refresh_saves V2 env w token2 H2 Hw Ht2) in Hr.
    exact (eq_trans Hr H3).
  - exact Hw.
  - rewrite <- Ht3. apply RequestLogin_pure.
Qed.

(** An empty directory and a server that grants sessions without an
    expiration.  The credential written has its members in the order of
    [{...response.data, sessionId, expiration}]. *)
Lemma Login_refreshes_both_empty :
  Cached.Login (Scenario.always (Answered (Scenario.session "T" "S" ∅)) Scenario.t0)
               Scenario.idle
  = (Normal tt,
     {| disk := <[TOKEN_PATH_V3 :=
                    JSON_stringify (<["expiration" := JStr "2024-01-01T00:30:00.500Z"]>
                                      (<["sessionId" := JStr "S"]> {["ticket" := JStr "T"]}))]>
                  (<[TOKEN_PATH_V2 :=
                       JSON_stringify (<["expiration" := JStr "2024-01-01T00:30:00.500Z"]>
                                         (<["sessionId" := JStr "S"]> {["ticket" := JStr "T"]}))]>
                     (disk Scenario.idle));
        writable := true;
        sent := (sent Scenario.idle ++ [UbiAppId.v2; UbiAppId.v3])%list;
        errors := errors Scenario.idle |})
  /\ members (<["expiration" := JStr "2024-01-01T00:30:00.500Z"]>
                (<["sessionId" := JStr "S"]> {["ticket" := JStr "T"]}))
     = [("ticket", JStr "T"); ("sessionId", JStr "S");
        ("expiration", JStr "2024-01-01T00:30:00.500Z")].
Proof.
  split; [|reflexivity].
  assert (Ht2 : (Cached.RequestLogin UbiAppId.v2 (Answered (Scenario.session "T" "S" ∅))
                                     (Scenario.t0 + 500) Scenario.idle).1
                = Normal (Some (<["expiration" := JStr "2024-01-01T00:30:00.500Z"]>
                                  (<["sessionId" := JStr "S"]> {["ticket" := JStr "T"]}))))
    by (vm_compute; reflexivity).
  assert (Ht3 : (Cached.RequestLogin UbiAppId.v3 (Answered (Scenario.session "T" "S" ∅))
                                     (Scenario.t0 + 500) Scenario.idle).1
                = Normal (Some (<["expiration" := JStr "2024-01-01T00:30:00.500Z"]>
                                  (<["sessionId" := JStr "S"]> {["ticket" := JStr "T"]}))))
    by (vm_compute; reflexivity).
  exact (Login_refreshes_both
           (Scenario.always (Answered (Scenario.session "T" "S" ∅)) Scenario.t0)
           Scenario.idle _ _ eq_refl eq_refl eq_refl Ht2 Ht3).
Defined.

(** X10. The credential a run of [Login] has just written is what the next
    [loadToken] of that version answers, exactly when its expiration lies
    more than five minutes after the clock of that load; otherwise the
    answer is [null] and the next [Login] logs in again.  (The text written
    is assumed to parse back to the credential.) *)
Theorem saved_credential_reuse `{Runtime} env w version token now' :
  (Cached.loadToken version (load_time env version) w).1 = Normal None ->
  writable w = true ->
  (Cached.RequestLogin (app_of version) (reply env (app_of version))
                       (login_time env (app_of version)) w).1 = Normal (Some token) ->
  (version = V2 \/ exists done, (Cached.refresh V2 env w).1 = Normal done) ->
  JSON_parse (JSON_stringify token) = Some (JObject token) ->
  disk (Cached.Login env w).2 !! token_path version = Some (JSON_stringify token)
  /\ (Cached.loadToken version now' (Cached.Login env w).2).1
     = Normal (if fresh token now' then Some token else None).
Proof.
  intros Hl Hw Ht Hreach Hj.
  assert (Hd : disk (Cached.Login env w).2 !! token_path version
               = Some (JSON_stringify token)).
  { apply reusable_false in Hl. rewrite Login_world. destruct version.
    - rewrite (refresh_saves V2 env w token Hl Hw Ht).
      pose proof (refresh_disk_other V3 env
                    (writing (token_path V2) (JSON_stringify token)
                             (sending (app_of V2) w)) (token_path V2)) as Ho.
      destruct (Cached.refresh V3 env _) as [[[]|e] w2]; simpl in *;
        (rewrite Ho by discriminate); apply lookup_insert_eq.
    - destruct Hreach as [[=]|[done Hdone]].
      pose proof (refresh_writable V2 env w) as Hw1.
      pose proof (reusable_after_first_block env w (load_time env V3)) as Hr.
      destruct (Cached.refresh V2 env w) as [c w1]. simpl in *. subst c.
      rewrite (refresh_saves V3 env w1 token).
      + simpl. apply lookup_insert_eq.
      + congruence.
      + congruence.
      + rewrite <- Ht. apply RequestLogin_pure. }
  split; [exact Hd|]. now apply loadToken_written.
Qed.

(** The credential written at [t0], default expiration thirty minutes
    later, is answered by a load twenty minutes after [t0]. *)
Lemma saved_credential_reuse_twenty_minutes :
  (Cached.loadToken V3 (Scenario.t0 + 20 * 60 * 1000)
     (Cached.Login (Scenario.always (Answered (Scenario.session "T" "S" ∅)) Scenario.t0)
                   Scenario.idle).2).1
  = Normal (Some (<["expiration" := JStr "2024-01-01T00:30:00.500Z"]>
                    (<["sessionId" := JStr "S"]> {["ticket" := JStr "T"]}))).
Proof.
  assert (Ht : (Cached.RequestLogin UbiAppId.v3 (Answered (Scenario.session "T" "S" ∅))
                                    (Scenario.t0 + 500) Scenario.idle).1
               = Normal (Some (<["expiration" := JStr "2024-01-01T00:30:00.500Z"]>
                                 (<["sessionId" := JStr "S"]> {["ticket" := JStr "T"]}))))
    by (vm_compute; reflexivity).
  assert (Hreach : V3 = V2 \/ exists done,
               (Cached.refresh V2
                  (Scenario.always (Answered (Scenario.session "T" "S" ∅)) Scenario.t0)
                  Scenario.idle).1 = Normal done)
    by (right; exists tt; vm_compute; reflexivity).
  assert (Hj : JSON_parse
                 (JSON_stringify (<["expiration" := JStr "2024-01-01T00:30:00.500Z"]>
                                    (<["sessionId" := JStr "S"]> {["ticket" := JStr "T"]})))
               = Some (JObject (<["expiration" := JStr "2024-01-01T00:30:00.500Z"]>
                                  (<["sessionId" := JStr "S"]> {["ticket" := JStr "T"]}))))
    by (vm_compute; reflexivity).
  rewrite (proj2 (saved_credential_reuse
                    (Scenario.always (Answered (Scenario.session "T" "S" ∅)) Scenario.t0)
                    Scenario.idle V3 _ (Scenario.t0 + 20 * 60 * 1000)
                    eq_refl eq_refl Ht Hreach Hj)).
  vm_compute. reflexivity.
Defined.

(** X11. A credential is obtained and then lost when the directory refuses
    the write: the login has cost its request, [Login] prints the error of
    the write and stops before the second application, and the directory is
    as before. *)
Theorem Login_write_refused `{Runtime} env w token :
  (Cached.loadToken V2 (load_time env V2) w).1 = Normal None ->
  writable w = false ->
  (Cached.RequestLogin UbiAppId.v2 (reply env UbiAppId.v2)
                       (login_time env UbiAppId.v2) w).1 = Normal (Some token) ->
  Cached.Login env w
  = (Normal tt,
     {| disk := disk w; writable := false;
        sent := (sent w ++ [UbiAppId.v2])%list;
        errors := (errors w ++ [(Some "Login failed:", SystemError "EACCES")])%list |}).
Proof.
  intros Hl Hw Ht. apply reusable_false in Hl.
  rewrite Login_world, (refresh_write_refused V2 env w token Hl Hw Ht).
  unfold printing, sending. simpl. now rewrite Hw.
Qed.

(** A directory that refuses every write and a server that grants. *)
Lemma Login_write_refused_read_only :
  Cached.Login (Scenario.always (Answered (Scenario.session "T" "S" ∅)) Scenario.t0)
               Cases.read_only
  = (Normal tt,
     {| disk := disk Cases.read_only; writable := false;
        sent := (sent Cases.read_only ++ [UbiAppId.v2])%list;
        errors := (errors Cases.read_only
                   ++ [(Some "Login failed:", SystemError "EACCES")])%list |}).
Proof.
  assert (Ht : (Cached.RequestLogin UbiAppId.v2 (Answered (Scenario.session "T" "S" ∅))
                                    (Scenario.t0 + 500) Cases.read_only).1
               = Normal (Some (<["expiration" := JStr "2024-01-01T00:30:00.500Z"]>
                                 (<["sessionId" := JStr "S"]> {["ticket" := JStr "T"]}))))
    by (vm_compute; reflexivity).
  exact (Login_write_refused
           (Scenario.always (Answered (Scenario.session "T" "S" ∅)) Scenario.t0)
           Cases.read_only _ eq_refl eq_refl Ht).
Defined.

(** X12. [saveToken] writes the file of its version and no other, so what
    [loadToken] answers for the other version is not affected; a second
    save of the same version replaces the first, of which nothing is kept;
    and when the directory refuses the write it throws and changes
    nothing. *)
Theorem saveToken_footprint `{Runtime} version token w :
  (forall path, path <> token_path version ->
     disk (Cached.saveToken version token w).2 !! path = disk w !! path)
  /\ (forall version' now, version' <> version ->
      (Cached.loadToken version' now (Cached.saveToken version token w).2).1
      = (Cached.loadToken version' now w).1)
  /\ (forall token', writable w = true ->
      (Cached.saveToken version token' (Cached.saveToken version token w).2).2
      = (Cached.saveToken version token' w).2)
  /\ (writable w = false ->
      Cached.saveToken version token w = (Abrupt (SystemError "EACCES"), w)).
Proof.
  split; [|split; [|split]].
  - intros path Hp. rewrite saveToken_run. destruct (writable w); [|reflexivity].
    simpl. now rewrite lookup_insert_ne.
  - intros version' now Hv. rewrite !loadToken_run, saveToken_run. simpl.
    destruct (writable w); [|reflexivity]. simpl.
    rewrite lookup_insert_ne; [reflexivity|].
    destruct version, version'; try discriminate; contradiction.
  - intros token' Hw. rewrite !saveToken_run, Hw. simpl. rewrite Hw. simpl.
    unfold writing. simpl. now rewrite insert_insert_eq.
  - intros Hw. now rewrite saveToken_run, Hw.
Qed.

(** ** The manager without the default *)

Section PlainFacts.
Context `{Runtime}.

Lemma plain_loadToken_run version now w :
  CachedPlain.loadToken version now w
  = (Normal (peek (disk w !! token_path version) now), w).
Proof. rewrite CachedPlain_loadToken. apply loadToken_run. Qed.

Lemma plain_RequestLogin_world appId reply w :
  (CachedPlain.RequestLogin appId reply w).2 = sending appId w.
Proof.
  unfold CachedPlain.RequestLogin. unfold try_catch, mbind, M_bind, axios.
  destruct (settle reply) as [e|r]; simpl.
  - match goal with
    | |- (rethrow ?m e ?w0).2 = _ => destruct (rethrow_throws m e w0) as [e' ->]
    end.
    reflexivity.
  - destruct (header_missing _); reflexivity.
Qed.

Lemma plain_refresh_run version env w :
  plain_refresh version env w
  = match peek (disk w !! token_path version) (load_time env version) with
    | Some _ => (Normal tt, w)
    | None =>
        match (CachedPlain.RequestLogin (app_of version) (reply env (app_of version)) w).1
        with
        | Normal (Some token) =>
            fs_writeFile (token_path version) (JSON_stringify token)
                         (sending (app_of version) w)
        | Normal None => (Normal tt, sending (app_of version) w)
        | Abrupt e => (Abrupt e, sending (app_of version) w)
        end
    end.
Proof.
  unfold plain_refresh. unfold mbind at 1. unfold M_bind. rewrite plain_loadToken_run.
  destruct (peek _ _); [reflexivity|].
  unfold mbind, M_bind.
  pose proof (plain_RequestLogin_world (app_of version) (reply env (app_of version)) w)
    as Hw.
  destruct (CachedPlain.RequestLogin _ _ w) as [c w1]. simpl in *. subst w1.
  destruct c as [[token|]|e]; reflexivity.
Qed.

Lemma plain_Login_blocks env w :
  CachedPlain.Login env w
  = try_catch (plain_refresh V2 env;; plain_refresh V3 env)
              (fun error => console_error (Some "Login failed:") error) w.
Proof.
  unfold CachedPlain.Login, plain_refresh, try_catch, mbind, M_bind, app_of.
  destruct (CachedPlain.loadToken V2 (load_time env V2) w) as [[[t|]|e] w1]; reflexivity.
Qed.

Lemma plain_Login_world env w :
  CachedPlain.Login env w
  = match plain_refresh V2 env w with
    | (Normal _, w1) =>
        match plain_refresh V3 env w1 with
        | (Normal _, w2) => (Normal tt, w2)
        | (Abrupt e, w2) => (Normal tt, printing (Some "Login failed:") e w2)
        end
    | (Abrupt e, w1) => (Normal tt, printing (Some "Login failed:") e w1)
    end.
Proof.
  rewrite plain_Login_blocks. unfold try_catch, mbind, M_bind, console_error, modify.
  destruct (plain_refresh V2 env w) as [[[]|e] w1]; [|reflexivity].
  destruct (plain_refresh V3 env w1) as [[[]|e] w2]; reflexivity.
Qed.

Lemma plain_refresh_disk_other version env w path :
  path <> token_path version ->
  disk (plain_refresh version env w).2 !! path = disk w !! path.
Proof.
  intros Hne. rewrite plain_refresh_run.
  destruct (peek _ _); [reflexivity|].
  destruct (CachedPlain.RequestLogin _ _ w).1 as [[token|]|e]; try reflexivity.
  unfold fs_writeFile. simpl. destruct (writable w); [|reflexivity].
  simpl. now rewrite lookup_insert_ne.
Qed.

Lemma plain_requests_refresh appId version env w :
  requests appId (plain_refresh version env w).2
  = match peek (disk w !! token_path version) (load_time env version) with
    | Some _ => requests appId w
    | None => requests appId (sending (app_of version) w)
    end.
Proof.
  rewrite plain_refresh_run. destruct (peek _ _); [reflexivity|].
  destruct (CachedPlain.RequestLogin _ _ w).1 as [[token|]|e]; try reflexivity.
  apply requests_fs_writeFile.
Qed.

(** One run of [Login] and the requests for the first application. *)
Lemma plain_Login_requests_first env w :
  requests UbiAppId.v2 (CachedPlain.Login env w).2
  = match peek (disk w !! token_path V2) (load_time env V2) with
    | Some _ => requests UbiAppId.v2 w
    | None => S (requests UbiAppId.v2 w)
    end.
Proof.
  rewrite plain_Login_world.
  pose proof (plain_requests_refresh UbiAppId.v2 V2 env w) as H2.
  rewrite requests_sending in H2. simpl in H2.
  destruct (plain_refresh V2 env w) as [[[]|e] w1]; simpl in *; [|exact H2].
  pose proof (plain_requests_refresh UbiAppId.v2 V3 env w1) as H3.
  rewrite requests_sending in H3. simpl in H3.
  assert (H3' : requests UbiAppId.v2 (plain_refresh V3 env w1).2
                = requests UbiAppId.v2 w1)
    by (rewrite H3; case_peek; reflexivity).
  destruct (plain_refresh V3 env w1) as [[[]|e] w2]; simpl in *;
    (transitivity (requests UbiAppId.v2 w2); [reflexivity|]); congruence.
Qed.

Lemma plain_Login_disk_first env w token :
  peek (disk w !! token_path V2) (load_time env V2) = None ->
  writable w = true ->
  (CachedPlain.RequestLogin UbiAppId.v2 (reply env UbiAppId.v2) w).1
  = Normal (Some token) ->
  disk (CachedPlain.Login env w).2 !! token_path V2 = Some (JSON_stringify token).
Proof.
  intros Hp Hw Ht. rewrite plain_Login_world.
  assert (H2 : plain_refresh V2 env w
               = (Normal tt,
                  writing (token_path V2) (JSON_stringify token) (sending UbiAppId.v2 w))).
  { rewrite plain_refresh_run, Hp. simpl app_of. rewrite Ht.
    unfold fs_writeFile. simpl. now rewrite Hw. }
  rewrite H2.
  pose proof (plain_refresh_disk_other V3 env
                (writing (token_path V2) (JSON_stringify token) (sending UbiAppId.v2 w))
                (token_path V2)) as Ho.
  destruct (plain_refresh V3 env _) as [[[]|e] w2]; simpl in *;
    (rewrite Ho by discriminate); apply lookup_insert_eq.
Qed.

End PlainFacts.

(** X13. In the manager without the default, a session the server grants
    without an expiration is written to the token file and never read back:
    whatever the clock, [loadToken] answers [null] for it, so the next run
    of [Login] logs in again.  (The text written is assumed to parse back to
    the credential.) *)
Theorem plain_credential_never_reused `{Runtime} env env' w r sid :
  (CachedPlain.loadToken V2 (load_time env V2) w).1 = Normal None ->
  writable w = true ->
  reply env UbiAppId.v2 = Answered r ->
  validateStatus (status r) = true ->
  headers r !! "ubi-sessionid" = Some sid ->
  sid <> "" ->
  truthy_opt (data r !! "expiration") = false ->
  JSON_parse (JSON_stringify (<["sessionId" := JStr sid]> (data r)))
  = Some (JObject (<["sessionId" := JStr sid]> (data r))) ->
  disk (CachedPlain.Login env w).2 !! token_path V2
  = Some (JSON_stringify (<["sessionId" := JStr sid]> (data r)))
  /\ (forall now', (CachedPlain.loadToken V2 now' (CachedPlain.Login env w).2).1
                   = Normal None)
  /\ requests UbiAppId.v2 (CachedPlain.Login env' (CachedPlain.Login env w).2).2
     = S (S (requests UbiAppId.v2 w)).
Proof.
  intros Hl Hw Hr Hv Hh Hs He Hj.
  rewrite plain_loadToken_run in Hl. simpl in Hl. injection Hl as Hp.
  pose proof (login_succeeds r sid Hv Hh Hs) as Hf.
  destruct (plain_RequestLogin_ok UbiAppId.v2 _ w Hf) as (r' & [= <-] & Hok).
  rewrite Hh in Hok. simpl in Hok. rewrite <- Hr in Hok.
  pose proof (plain_Login_disk_first env w _ Hp Hw Hok) as Hd.
  assert (Hnever : forall now',
             peek (disk (CachedPlain.Login env w).2 !! token_path V2) now' = None).
  { intros now'. rewrite Hd. unfold peek. rewrite Hj. unfold fresh.
    rewrite obj_lookup_insert_ne by discriminate.
    destruct (data r !! "expiration") as [e|]; [|reflexivity].
    simpl in He. now rewrite He. }
  split; [exact Hd|]. split.
  - intros now'. rewrite plain_loadToken_run. simpl. now rewrite Hnever.
  - rewrite plain_Login_requests_first, Hnever. f_equal.
    rewrite plain_Login_requests_first. unfold token_path. now rewrite Hp.
Qed.

(** An empty directory, a session without an expiration, and a second run
    of [Login] ten seconds later. *)
Lemma plain_credential_never_reused_ten_seconds :
  requests UbiAppId.v2
    (CachedPlain.Login
       (Scenario.always (Answered (Scenario.session "T" "S" ∅)) (Scenario.t0 + 10000))
       (CachedPlain.Login
          (Scenario.always (Answered (Scenario.session "T" "S" ∅)) Scenario.t0)
          Scenario.idle).2).2
  = 2%nat.
Proof.
  assert (Hj : JSON_parse (JSON_stringify (<["sessionId" := JStr "S"]>
                                             (data (Scenario.session "T" "S" ∅))))
               = Some (JObject (<["sessionId" := JStr "S"]>
                                  (data (Scenario.session "T" "S" ∅)))))
    by (vm_compute; reflexivity).
  exact (proj2 (proj2 (plain_credential_never_reused
           (Scenario.always (Answered (Scenario.session "T" "S" ∅)) Scenario.t0)
           (Scenario.always (Answered (Scenario.session "T" "S" ∅)) (Scenario.t0 + 10000))
           Scenario.idle (Scenario.session "T" "S" ∅) "S"
           eq_refl eq_refl eq_refl eq_refl eq_refl ltac:(discriminate) eq_refl Hj))).
Defined.

(** ** The manager that always logs in *)

Lemma Legacy_RequestLogin_result appId reply w :
  (Legacy.RequestLogin appId reply w).1 <> Normal None.
Proof.
  destruct (login_fails reply) eqn:Hf.
  - destruct (Legacy_RequestLogin_fails appId reply w Hf) as [e ->]. discriminate.
  - destruct (Legacy_RequestLogin_ok appId reply w Hf) as (r & _ & ->). discriminate.
Qed.

Lemma save_as_json_sent `{Runtime} path o w :
  sent (save_as_json path o w).2 = sent w.
Proof. unfold save_as_json, fs_writeFile. destruct (writable w); reflexivity. Qed.

(** X14. The manager without a cache sends a request for the first
    application on every run of [Login], whatever the directory holds, and
    one for the second exactly when the first login has returned and its
    credential has been saved without error.  ([SaveJSONToFile] is any
    function that sends no request itself.) *)
Theorem Legacy_Login_requests save env w :
  (forall path o w0, sent (save path o w0).2 = sent w0) ->
  sent (Legacy.Login save env w).2
  = (sent w ++ UbiAppId.v2 ::
       match (Legacy.RequestLogin UbiAppId.v2 (reply env UbiAppId.v2) w).1 with
       | Normal (Some token) =>
           match (save "private/auth_token_v2.json" token (sending UbiAppId.v2 w)).1 with
           | Normal _ => [UbiAppId.v3]
           | Abrupt _ => []
           end
       | _ => []
       end)%list.
Proof.
  intros Hsave. unfold Legacy.Login, try_catch, console_error, modify.
  unfold mbind at 1. unfold M_bind at 1.
  pose proof (Legacy_RequestLogin_world UbiAppId.v2 (reply env UbiAppId.v2) w) as Hw.
  pose proof (Legacy_RequestLogin_result UbiAppId.v2 (reply env UbiAppId.v2) w) as Hsome.
  destruct (Legacy.RequestLogin UbiAppId.v2 (reply env UbiAppId.v2) w) as [c w1].
  simpl in Hw, Hsome. subst w1. simpl fst.
  destruct c as [[token|]|e]; [|contradiction|reflexivity].
  - unfold mbind at 1. unfold M_bind at 1.
    pose proof (Hsave "private/auth_token_v2.json" token (sending UbiAppId.v2 w)) as Hs.
    destruct (save "private/auth_token_v2.json" token (sending UbiAppId.v2 w))
      as [[[]|e] w2]; simpl in Hs; [|simpl; now rewrite Hs].
    unfold mbind at 1. unfold M_bind at 1.
    pose proof (Legacy_RequestLogin_world UbiAppId.v3 (reply env UbiAppId.v3) w2) as Hw3.
    destruct (Legacy.RequestLogin UbiAppId.v3 (reply env UbiAppId.v3) w2) as [c3 w3].
    simpl in Hw3. subst w3.
    assert (Hthree : sent (sending UbiAppId.v3 w2)
                     = (sent w ++ [UbiAppId.v2; UbiAppId.v3])%list)
      by (simpl; rewrite Hs; simpl; now rewrite <- app_assoc).
    destruct c3 as [[token3|]|e3]; simpl; try exact Hthree.
    pose proof (Hsave "private/auth_token_v3.json" token3 (sending UbiAppId.v3 w2)) as Hs3.
    destruct (save "private/auth_token_v3.json" token3 (sending UbiAppId.v3 w2))
      as [[[]|e] w4]; simpl in *; congruence.
Qed.

(** Token files that are still good do not spare the requests. *)
Lemma Legacy_Login_requests_always :
  sent (Legacy.Login save_as_json
          (Scenario.always (Answered (Scenario.session "T" "S" ∅)) Scenario.t0)
          (Scenario.stored V3 (Scenario.t0 + 3600000)
             (Scenario.stored V2 (Scenario.t0 + 3600000) Scenario.idle))).2
  = [UbiAppId.v2; UbiAppId.v3].
Proof.
  rewrite (Legacy_Login_requests save_as_json
             (Scenario.always (Answered (Scenario.session "T" "S" ∅)) Scenario.t0)
             _ save_as_json_sent).
  reflexivity.
Defined.

(** ** The three logins of the file managers, side by side *)

Lemma rethrow_same_text m1 m2 e w :
  (forall r, e = AxiosError (Some r) -> status r <> 429) ->
  rethrow m1 e w = rethrow m2 e w.
Proof.
  intros H429. unfold rethrow, throw.
  destruct e as [m|m|[r|]| | |]; try reflexivity. simpl.
  destruct (status r =? 0); [reflexivity|].
  destruct (status r =? 401); [reflexivity|].
  destruct (status r =? 409); [reflexivity|].
  destruct (status r =? 429) eqn:E; [|reflexivity].
  apply Z.eqb_eq in E. now destruct (H429 r eq_refl).
Qed.

(** X15. The logins of the three file managers differ in three places
    only.  They send the same request.  On any answer other than a 429 the
    two without the default return or throw the same value, and the one with
    the default throws what they throw; where they return a credential it
    returns that credential with its member [expiration] set ([||] of what
    it had and the ISO string of the clock plus thirty minutes), unless the
    body of the response is [null]: then it throws a [TypeError] where the
    two return the session identifier alone.  On a 429 each throws a string
    of its own. *)
Theorem RequestLogin_revisions `{Runtime} appId reply now w :
  ((forall r, reply = Answered r -> status r <> 429) ->
   CachedPlain.RequestLogin appId reply w = Legacy.RequestLogin appId reply w
   /\ (Cached.RequestLogin appId reply now w).2 = (Legacy.RequestLogin appId reply w).2
   /\ (forall e, (Legacy.RequestLogin appId reply w).1 = Abrupt e ->
       (Cached.RequestLogin appId reply now w).1 = Abrupt e)
   /\ (forall token, (Legacy.RequestLogin appId reply w).1 = Normal (Some token) ->
       (Cached.RequestLogin appId reply now w).1
       = if null_body reply then Abrupt TypeError
         else Normal (Some (<["expiration" :=
                               js_or (token !! "expiration")
                                     (JStr (toISOString (now + 30 * 60 * 1000)))]>
                              token))))
  /\ (forall r, reply = Answered r -> status r = 429 ->
      (Legacy.RequestLogin appId reply w).1 = Abrupt (Literal "Too many requests.")
      /\ (Cached.RequestLogin appId reply now w).1
         = Abrupt (Literal "Too many requests. Rate limit hit.")
      /\ (CachedPlain.RequestLogin appId reply w).1
         = Abrupt (Literal "‚ùå Too many requests. Rate limit hit.")).
Proof.
  split.
  - intros H429.
    assert (Hsame : forall m1 m2 e w0, settle reply = inl e ->
                      rethrow m1 e w0 = rethrow m2 e w0).
    { intros m1 m2 e w0 Hs. apply rethrow_same_text. intros r ->.
      destruct reply as [r'|code]; simpl in Hs.
      - destruct (validateStatus (status r')); [discriminate|].
        injection Hs as <-. now apply H429.
      - discriminate. }
    unfold CachedPlain.RequestLogin, Legacy.RequestLogin, Cached.RequestLogin.
    unfold try_catch, mbind, M_bind, axios.
    destruct (settle reply) as [e|r] eqn:Hs.
    + rewrite (Hsame _ "Too many requests." e (sending appId w) eq_refl).
      rewrite (Hsame "Too many requests. Rate limit hit." "Too many requests." e
                 (sending appId w) eq_refl).
      destruct (rethrow_throws "Too many requests." e (sending appId w)) as [e' ->].
      repeat split; [now intros e0 [= <-]|discriminate].
    + apply settle_Normal in Hs as [-> _]. simpl.
      destruct (header_missing (headers r !! "ubi-sessionid")); simpl.
      * repeat split; [now intros e0 [= <-]|discriminate].
      * destruct (body r) eqn:Hb; simpl.
        -- split; [reflexivity|]. split; [reflexivity|].
           split; [discriminate|]. now intros token [= <-].
        -- repeat split; [discriminate|]. intros token [= <-].
           now rewrite obj_lookup_insert_ne by discriminate.
  - intros r -> H429.
    unfold CachedPlain.RequestLogin, Legacy.RequestLogin, Cached.RequestLogin.
    unfold try_catch, mbind, M_bind, axios, rethrow, settle, throw. simpl.
    rewrite H429. simpl. rewrite H429. repeat split.
Qed.

(** A 500, which is not a 429: the three throw the error of axios.  A
    session granted with a [null] body: the manager with the default throws
    where the others return the session identifier. *)
Lemma RequestLogin_revisions_500 :
  (CachedPlain.RequestLogin UbiAppId.v2 (Answered (Scenario.refused 500)) Scenario.idle
   = Legacy.RequestLogin UbiAppId.v2 (Answered (Scenario.refused 500)) Scenario.idle
   /\ (Cached.RequestLogin UbiAppId.v2 (Answered (Scenario.refused 500))
                           Scenario.t0 Scenario.idle).1
      = Abrupt (AxiosError (Some (Scenario.refused 500))))
  /\ (CachedPlain.RequestLogin UbiAppId.v2 (Answered Cases.session_null) Scenario.idle).1
     = Normal (Some {["sessionId" := JStr "S"]})
  /\ (Cached.RequestLogin UbiAppId.v2 (Answered Cases.session_null)
                          Scenario.t0 Scenario.idle).1
     = Abrupt TypeError.
Proof.
  split; [|split].
  - destruct (proj1 (RequestLogin_revisions UbiAppId.v2 (Answered (Scenario.refused 500))
                       Scenario.t0 Scenario.idle)) as (Hp & _ & He & _).
    + intros r [= <-]. discriminate.
    + split; [exact Hp|]. apply He. reflexivity.
  - reflexivity.
  - destruct (proj1 (RequestLogin_revisions UbiAppId.v2 (Answered Cases.session_null)
                       Scenario.t0 Scenario.idle)) as (_ & _ & _ & Hn).
    + intros r [= <-]. discriminate.
    + exact (Hn _ eq_refl).
Defined.
